(** * kadena-rag: chunking, ingestion and retrieval-augmented query

    A shallow embedding of [vectorizer.js] (class [Vectorizer]), of
    [index.js] (class [KadenaRAG]) and of [api/rag.js] ([createRagRouter]),
    with the properties of the chunker, of the ingestion run, of the query
    engine and of the HTTP handler.

    Strings are JavaScript strings: finite sequences of UTF-16 code units,
    [length] counting code units.  Calls that leave the process (the vector
    store, the file system, the chat completion) are nodes of a small
    program tree, run against an arbitrary environment. *)

From Stdlib Require Import Strings.Ascii Strings.String Floats.PrimFloat.
From stdpp Require Import base list strings pretty.

Set Default Proof Using "Type".
Set Warnings "-register-all".

(** ** JavaScript strings *)

Abbreviation code_unit := N (only parsing).
Abbreviation jsstring := (list N) (only parsing).

(** The code units of an ASCII literal. *)
Definition js (s : string) : jsstring :=
  (fun a => N_of_ascii a) <$> list_ascii_of_string s.

Definition space : code_unit := 32%N.

Definition dash : code_unit := 45%N.

Definition newline : code_unit := 10%N.

(** Truthiness of a string: every string but the empty one. *)
Definition str_truthy (s : jsstring) : bool :=
  match s with [] => false | _ :: _ => true end.

(** [split_by p s]: the pieces of [s] between the code units satisfying [p],
    empty pieces included; there is always at least one piece. *)
Fixpoint split_by (p : code_unit -> bool) (s : jsstring) : list jsstring :=
  match s with
  | [] => [[]]
  | c :: s' =>
      if p c then [] :: split_by p s'
      else match split_by p s' with
           | w :: ws => (c :: w) :: ws
           | [] => [[c]]
           end
  end.

Definition is_space (c : code_unit) : bool := N.eqb c space.

(** [text.split(" ")] *)
Definition split_space (s : jsstring) : list jsstring := split_by is_space s.

(** [Array.prototype.join] on an array of strings. *)
Fixpoint join (sep : jsstring) (l : list jsstring) : jsstring :=
  match l with
  | [] => []
  | [a] => a
  | a :: rest => a ++ sep ++ join sep rest
  end.

(** White space in the sense of the [\s] class of ECMAScript regular
    expressions (WhiteSpace and LineTerminator code points). *)
Definition is_whitespace (c : code_unit) : bool :=
  (N.leb 9 c && N.leb c 13) || N.eqb c 32 || N.eqb c 160 || N.eqb c 5760
  || (N.leb 8192 c && N.leb c 8202) || N.eqb c 8232 || N.eqb c 8233
  || N.eqb c 8239 || N.eqb c 8287 || N.eqb c 12288 || N.eqb c 65279.

(** The word sequence of a string for a class [p] of delimiters: the maximal
    non-empty runs of code units outside [p]. *)
Definition words (p : code_unit -> bool) (s : jsstring) : list jsstring :=
  filter (fun w => w <> []) (split_by p s).

(** ** JavaScript values

    The values [JSON.parse] produces, and [undefined] for what is absent.
    An object is its list of properties, one per name. *)

Inductive JValue :=
| JUndefined
| JNull
| JBool (b : bool)
| JNum (f : float)
| JStr (s : jsstring)
| JArr (items : list JValue)
| JObj (props : list (jsstring * JValue)).

(** ToBoolean. *)
Definition truthy (v : JValue) : bool :=
  match v with
  | JUndefined | JNull => false
  | JBool b => b
  | JNum f => negb (PrimFloat.eqb f 0 || PrimFloat.is_nan f)
  | JStr s => str_truthy s
  | JArr _ | JObj _ => true
  end.

(** What is thrown: a [TypeError] raised by the engine, or the rejection of
    a call that left the process. *)
Inductive Error :=
| TypeError
| Rejected (message : jsstring).

Inductive Outcome (A : Type) :=
| Returned (a : A)
| Thrown (e : Error).
Arguments Returned {A} _.
Arguments Thrown {A} _.

#[global] Instance Outcome_ret : MRet Outcome := fun _ a => Returned a.
#[global] Instance Outcome_bind : MBind Outcome := fun _ _ f o =>
  match o with Returned a => f a | Thrown e => Thrown e end.

Fixpoint lookup_prop (name : jsstring) (props : list (jsstring * JValue)) : JValue :=
  match props with
  | [] => JUndefined
  | (k, v) :: rest => if bool_decide (k = name) then v else lookup_prop name rest
  end.

(** [v.name], for a name that is no built-in property of strings, numbers,
    booleans or arrays ([content], [source], [title], [question],
    [numResults]). *)
Definition get_prop (v : JValue) (name : jsstring) : Outcome JValue :=
  match v with
  | JUndefined | JNull => Thrown TypeError
  | JObj props => Returned (lookup_prop name props)
  | JBool _ | JNum _ | JStr _ | JArr _ => Returned JUndefined
  end.

(** A default in a destructuring pattern: it replaces [undefined] only. *)
Definition default_to (d : JValue) (v : JValue) : JValue :=
  match v with JUndefined => d | _ => v end.

(** [a[0]] followed by a property access or a method call on it. *)
Definition first {A} (a : list A) : Outcome A :=
  match a with x :: _ => Returned x | [] => Thrown TypeError end.

(** [forEach((x, i) => ...)] over an array, the callback updating the
    variables (of type [T]) it closes over; an exception in the callback ends
    the loop. *)
Fixpoint forEach_from {A T : Type} (f : T -> A -> nat -> Outcome T)
    (l : list A) (i : nat) (s : T) : Outcome T :=
  match l with
  | [] => Returned s
  | x :: l' =>
      match f s x i with
      | Returned s' => forEach_from f l' (S i) s'
      | Thrown e => Thrown e
      end
  end.

Definition forEach {A T : Type} (f : T -> A -> nat -> Outcome T)
    (l : list A) (s : T) : Outcome T :=
  forEach_from f l 0 s.

(** [Array.prototype.map] with a callback that can throw. *)
Fixpoint map_throwing {A B} (f : A -> Outcome B) (l : list A) : Outcome (list B) :=
  match l with
  | [] => Returned []
  | x :: l' => y ← f x; ys ← map_throwing f l'; Returned (y :: ys)
  end.

(** ** Calls that leave the process *)

Record Message := mkMessage { role : jsstring; content : JValue }.

Record Choice := mkChoice { message : Message }.

Record Completion := mkCompletion { choices : list Choice }.

(** The result of [collection.query]: one row per query text in each field.
    [ids] is optional because [processDocuments] guards against its
    absence. *)
Record QueryResult := mkQueryResult {
  ids : option (list (list jsstring));
  documents : list (list jsstring);
  metadatas : list (list JValue)
}.

Inductive Cmd :=
| CollectionQuery (queryTexts : list jsstring) (nResults : nat)
| CollectionAdd (ids documents : list jsstring) (metadatas : list JValue)
| ReadJSON (path : jsstring)
| ChatCompletionsCreate (model : jsstring) (messages : list Message).

(** What a call evaluates to when its promise is fulfilled; [None] is a
    null or undefined query result. *)
Definition resp (c : Cmd) : Type :=
  match c with
  | CollectionQuery _ _ => option QueryResult
  | CollectionAdd _ _ _ => unit
  | ReadJSON _ => JValue
  | ChatCompletionsCreate _ _ => Completion
  end.

(** Programs: return, throw, or await a call and go on with its value or
    with its rejection. *)
Inductive Prog (R : Type) : Type :=
| Ret (r : R)
| Throw (e : Error)
| Call (c : Cmd) (k : resp c -> Prog R) (h : Error -> Prog R).
Arguments Ret {R} _.
Arguments Throw {R} _.
Arguments Call {R} _ _ _.

Fixpoint Prog_bind_def {A B : Type} (f : A -> Prog B) (p : Prog A) : Prog B :=
  match p with
  | Ret a => f a
  | Throw e => Throw e
  | Call c k h => Call c (fun x => Prog_bind_def f (k x)) (fun e => Prog_bind_def f (h e))
  end.

#[global] Instance Prog_ret : MRet Prog := fun _ a => Ret a.
#[global] Instance Prog_bind : MBind Prog := fun _ _ f p => Prog_bind_def f p.

(** [try { p } catch (error) { handler error }] *)
Fixpoint try_catch {R : Type} (p : Prog R) (handler : Error -> Prog R) : Prog R :=
  match p with
  | Ret r => Ret r
  | Throw e => handler e
  | Call c k h =>
      Call c (fun x => try_catch (k x) handler) (fun e => try_catch (h e) handler)
  end.

(** [await] of one call. *)
Definition call (c : Cmd) : Prog (resp c) := Call c Ret Throw.

Definition lift {A : Type} (o : Outcome A) : Prog A :=
  match o with Returned a => Ret a | Thrown e => Throw e end.

(** An environment answers every call, fulfilled or rejected, and moves to
    its next state. *)
Record Env := mkEnv {
  St : Type;
  respond : forall c : Cmd, St -> Outcome (resp c) * St
}.

(** Running a program: the calls made in order, the outcome, the final state
    of the environment. *)
Fixpoint run {R : Type} (E : Env) (p : Prog R) (s : St E)
    : list Cmd * Outcome R * St E :=
  match p with
  | Ret r => ([], Returned r, s)
  | Throw e => ([], Thrown e, s)
  | Call c k h =>
      match respond E c s with
      | (Returned x, s') => let '(tr, o, s'') := run E (k x) s' in (c :: tr, o, s'')
      | (Thrown e, s') => let '(tr, o, s'') := run E (h e) s' in (c :: tr, o, s'')
      end
  end.

Definition trace {R : Type} (E : Env) (p : Prog R) (s : St E) : list Cmd :=
  (run E p s).1.1.

Definition outcome {R : Type} (E : Env) (p : Prog R) (s : St E) : Outcome R :=
  (run E p s).1.2.

Definition final {R : Type} (E : Env) (p : Prog R) (s : St E) : St E :=
  (run E p s).2.

Definition is_add (c : Cmd) : bool :=
  match c with CollectionAdd _ _ _ => true | _ => false end.

(** ** [vectorizer.js] *)

Definition CHUNK_SIZE : nat := 500.

Record Chunk (M : Type) := mkChunk { text : jsstring; metadata : M }.
Arguments mkChunk {M} _ _.
Arguments text {M} _.
Arguments metadata {M} _.

(** The variables [allChunks], [ids], [texts] and [metadatas] that the two
    [forEach] callbacks of [processDocuments] push to. *)
Record Acc := mkAcc {
  allChunks : list (Chunk JValue);
  acc_ids : list jsstring;
  acc_texts : list jsstring;
  acc_metadatas : list JValue
}.

Module Vectorizer.

Section Chunker.
Context {M : Type}.

(** [chunks.push({ text: currentChunk, metadata: { ...metadata } })] under
    [if (currentChunk)].  The copy of the metadata object is the same value. *)
Definition push_if_truthy (chunks : list (Chunk M)) (currentChunk : jsstring)
    (metadata : M) : list (Chunk M) :=
  if str_truthy currentChunk then chunks ++ [mkChunk currentChunk metadata]
  else chunks.

(** One iteration of [for (const word of words)]; the state is
    [(chunks, currentChunk)]. *)
Definition chunk_step (metadata : M) (st : list (Chunk M) * jsstring)
    (word : jsstring) : list (Chunk M) * jsstring :=
  let '(chunks, currentChunk) := st in
  if bool_decide (length (currentChunk ++ [space] ++ word) <= CHUNK_SIZE)
  then (chunks,
        currentChunk ++ (if str_truthy currentChunk then [space] else []) ++ word)
  else (push_if_truthy chunks currentChunk metadata, word).

Definition splitIntoChunks (text : jsstring) (metadata : M) : list (Chunk M) :=
  let '(chunks, currentChunk) :=
    fold_left (chunk_step metadata) (split_space text) ([], []) in
  push_if_truthy chunks currentChunk metadata.

End Chunker.

(** The decimal numeral of an array index, as a template literal prints it. *)
Definition index_string (i : nat) : jsstring := js (pretty i).

(** [`${docIndex}-${chunkIndex}`] *)
Definition chunk_id (docIndex chunkIndex : nat) : jsstring :=
  index_string docIndex ++ js "-" ++ index_string chunkIndex.

(** The callback of [chunks.forEach]. *)
Definition push_chunk (docIndex : nat) (acc : Acc) (chunk : Chunk JValue)
    (chunkIndex : nat) : Outcome Acc :=
  let id := chunk_id docIndex chunkIndex in
  Returned {| allChunks := allChunks acc;
              acc_ids := acc_ids acc ++ [id];
              acc_texts := acc_texts acc ++ [text chunk];
              acc_metadatas := acc_metadatas acc ++ [metadata chunk] |}.

(** [this.splitIntoChunks(doc.content, { source: doc.source, title: doc.title })]:
    the arguments are evaluated first; [split] exists on strings only. *)
Definition chunk_document (doc : JValue) : Outcome (list (Chunk JValue)) :=
  content ← get_prop doc (js "content");
  source ← get_prop doc (js "source");
  title ← get_prop doc (js "title");
  match content with
  | JStr text =>
      Returned (splitIntoChunks text (JObj [(js "source", source); (js "title", title)]))
  | _ => Thrown TypeError
  end.

(** The callback of [documents.forEach]. *)
Definition push_document (acc : Acc) (doc : JValue) (docIndex : nat) : Outcome Acc :=
  chunks ← chunk_document doc;
  acc' ← forEach (push_chunk docIndex) chunks acc;
  Returned {| allChunks := allChunks acc' ++ chunks;
              acc_ids := acc_ids acc';
              acc_texts := acc_texts acc';
              acc_metadatas := acc_metadatas acc' |}.

(** [documents.forEach(...)] on what [readJSON] gave: only an array has
    [forEach]. *)
Definition collect (documents : JValue) : Outcome Acc :=
  match documents with
  | JArr docs => forEach push_document docs (mkAcc [] [] [] [])
  | _ => Thrown TypeError
  end.

(** [check && check.ids && check.ids.length > 0] *)
Definition probe_hit (check : option QueryResult) : bool :=
  match check with
  | Some r =>
      match ids r with
      | Some rows => bool_decide (0 < length rows)
      | None => false
      end
  | None => false
  end.

(** [this.collection.query({ queryTexts: [" "], nResults: 1 })] *)
Definition probe : Cmd := CollectionQuery [js " "] 1.

(** [path.join(process.cwd(), "data", "processed_docs.json")], relative to the
    working directory. *)
Definition docsPath : jsstring := js "data/processed_docs.json".

Definition processDocuments : Prog unit :=
  try_catch
    (check ← call probe;
     if probe_hit check then Ret tt
     else
       documents ← call (ReadJSON docsPath);
       acc ← lift (collect documents);
       _ ← call (CollectionAdd (acc_ids acc) (acc_texts acc) (acc_metadatas acc));
       Ret tt)
    (fun error => Throw error).

(** [numResults] is [None] when the argument is left out. *)
Definition query (queryText : jsstring) (numResults : option nat)
    : Prog (option QueryResult) :=
  try_catch
    (call (CollectionQuery [queryText] (default 5 numResults)))
    (fun error => Throw error).

End Vectorizer.

Import Vectorizer.

(** ** [index.js] *)

Record Source := mkSource { title : JValue; source : JValue }.

Record Answer := mkAnswer { answer : JValue; sources : list Source }.

(** The separator ["\n\n"]: the end of a line and one empty line. *)
Definition blank_line : jsstring := [newline; newline].

Definition system_prompt : jsstring :=
  js "You are K-Agent: An AI agent that answers questions about Kadena blockchain. "
  ++ js "Use the provided context to answer questions accurately. "
  ++ js "Be detailed in your answers "
  ++ js "If you're not sure about something, say so."
  ++ js "Do NOT use Markdown formatting in your responses.".

(** [`Context: ${context}\n\nQuestion: ${question}`] *)
Definition user_prompt (context question : jsstring) : jsstring :=
  js "Context: " ++ context ++ blank_line ++ js "Question: " ++ question.

Definition chat_messages (context question : jsstring) : list Message :=
  [ mkMessage (js "system") (JStr system_prompt);
    mkMessage (js "user") (JStr (user_prompt context question)) ].

(** [results.documents[0]] and [results.metadatas[0]] *)
Definition field0 {A} (field : QueryResult -> list A) (results : option QueryResult)
    : Outcome A :=
  match results with
  | Some r => first (field r)
  | None => Thrown TypeError
  end.

(** [(meta) => ({ title: meta.title, source: meta.source })] *)
Definition source_of (meta : JValue) : Outcome Source :=
  title ← get_prop meta (js "title");
  source ← get_prop meta (js "source");
  Returned (mkSource title source).

Module KadenaRAG.

(** [numResults] is [None] when the argument is left out. *)
Definition query (question : jsstring) (numResults : option nat) : Prog Answer :=
  try_catch
    (results ← Vectorizer.query question (Some (default 5 numResults));
     retrieved ← lift (field0 documents results);
     let context := join blank_line retrieved in
     completion ← call (ChatCompletionsCreate (js "o3-mini")
                          (chat_messages context question));
     choice ← lift (first (choices completion));
     metas ← lift (field0 metadatas results);
     sources ← lift (map_throwing source_of metas);
     Ret (mkAnswer (content (message choice)) sources))
    (fun error => Throw error).

End KadenaRAG.

(** ** [api/rag.js]: the handler of [router.post('/rag', ...)] *)

Inductive ResponseBody :=
| ErrorBody (error : jsstring)
| FailureBody (error : jsstring) (details : Error)
| AnswerBody (question : JValue) (answer : JValue) (sources : list Source).

Record Response := mkResponse { status : nat; body : ResponseBody }.

Definition bad_request : Response :=
  mkResponse 400 (ErrorBody (js "Question is required")).

Section createRagRouter.
(** [rag.query], the only way from the handler to retrieval and completion. *)
Variable rag_query : JValue -> JValue -> Prog Answer.

Definition post_rag (req_body : JValue) : Prog Response :=
  try_catch
    (question ← lift (get_prop req_body (js "question"));
     numResults ← lift (get_prop req_body (js "numResults"));
     if negb (truthy question) then Ret bad_request
     else
       response ← rag_query question (default_to (JNum 5) numResults);
       Ret (mkResponse 200 (AnswerBody question (answer response) (sources response))))
    (fun error =>
       Ret (mkResponse 500 (FailureBody (js "Failed to process question") error))).

End createRagRouter.

(** ** Calls of the start-up and of the scraper

    [Vectorizer.initialize], [KadenaRAG.initialize] and [scraper.js] open
    the collection and work on files; their programs are trees over these
    calls, the calls of the query path among them as [Service]. *)

Inductive SysCmd :=
| GetCollection (name : jsstring)
| CreateCollection (name : jsstring)
| EnsureDir (path : jsstring)
| Glob (pattern cwd : jsstring)
| ReadFile (path : jsstring)
| WriteJSON (path : jsstring) (value : JValue)
| Service (c : Cmd).

(** A collection handle is kept by the environment; [glob] gives the paths
    it found, [readFile] with ['utf8'] the text of the file. *)
Definition sys_resp (c : SysCmd) : Type :=
  match c with
  | GetCollection _ | CreateCollection _ | EnsureDir _ | WriteJSON _ _ => unit
  | Glob _ _ => list jsstring
  | ReadFile _ => jsstring
  | Service c => resp c
  end.

Inductive SysProg (R : Type) : Type :=
| SRet (r : R)
| SThrow (e : Error)
| SCall (c : SysCmd) (k : sys_resp c -> SysProg R) (h : Error -> SysProg R).
Arguments SRet {R} _.
Arguments SThrow {R} _.
Arguments SCall {R} _ _ _.

Fixpoint SysProg_bind_def {A B : Type} (f : A -> SysProg B) (p : SysProg A)
    : SysProg B :=
  match p with
  | SRet a => f a
  | SThrow e => SThrow e
  | SCall c k h =>
      SCall c (fun x => SysProg_bind_def f (k x)) (fun e => SysProg_bind_def f (h e))
  end.

#[global] Instance SysProg_ret : MRet SysProg := fun _ a => SRet a.
#[global] Instance SysProg_bind : MBind SysProg := fun _ _ f p => SysProg_bind_def f p.

(** [try { p } catch (error) { handler error }] *)
Fixpoint sys_try_catch {R : Type} (p : SysProg R) (handler : Error -> SysProg R)
    : SysProg R :=
  match p with
  | SRet r => SRet r
  | SThrow e => handler e
  | SCall c k h =>
      SCall c (fun x => sys_try_catch (k x) handler)
        (fun e => sys_try_catch (h e) handler)
  end.

Definition sys_call (c : SysCmd) : SysProg (sys_resp c) := SCall c SRet SThrow.

Definition sys_lift {A : Type} (o : Outcome A) : SysProg A :=
  match o with Returned a => SRet a | Thrown e => SThrow e end.

(** A program of the query path, as part of a larger one. *)
Fixpoint of_prog {R : Type} (p : Prog R) : SysProg R :=
  match p with
  | Ret r => SRet r
  | Throw e => SThrow e
  | Call c k h => SCall (Service c) (fun x => of_prog (k x)) (fun e => of_prog (h e))
  end.

Record SysEnv := mkSysEnv {
  SysSt : Type;
  sys_respond : forall c : SysCmd, SysSt -> Outcome (sys_resp c) * SysSt
}.

Fixpoint sys_run {R : Type} (E : SysEnv) (p : SysProg R) (s : SysSt E)
    : list SysCmd * Outcome R * SysSt E :=
  match p with
  | SRet r => ([], Returned r, s)
  | SThrow e => ([], Thrown e, s)
  | SCall c k h =>
      match sys_respond E c s with
      | (Returned x, s') =>
          let '(tr, o, s'') := sys_run E (k x) s' in (c :: tr, o, s'')
      | (Thrown e, s') =>
          let '(tr, o, s'') := sys_run E (h e) s' in (c :: tr, o, s'')
      end
  end.

(** The environment of the query path inside a larger one. *)
Definition service_env (E : SysEnv) : Env :=
  mkEnv (SysSt E) (fun c s => sys_respond E (Service c) s).

(** ** Start-up: [Vectorizer.initialize] and [KadenaRAG.initialize] *)

Definition COLLECTION_NAME : jsstring := js "kadena_docs".

(** [Vectorizer.initialize]: the handle either call gives is kept in
    [this.collection]. *)
Definition Vectorizer_initialize : SysProg unit :=
  sys_try_catch
    (sys_try_catch
       (sys_call (GetCollection COLLECTION_NAME))
       (fun error => sys_call (CreateCollection COLLECTION_NAME)))
    (fun error => SThrow error).

(** [KadenaRAG.initialize] *)
Definition KadenaRAG_initialize : SysProg unit :=
  sys_try_catch
    (_ ← Vectorizer_initialize;
     of_prog processDocuments)
    (fun error => SThrow error).

(** ** [scraper.js] *)

(** The first argument of [replace(/\s+/g, ' ')] matches every maximal run of
    white space; [in_run] tells that the code unit before was white space. *)
Fixpoint collapse (in_run : bool) (s : jsstring) : jsstring :=
  match s with
  | [] => []
  | c :: s' =>
      if is_whitespace c
      then (if in_run then collapse true s' else space :: collapse true s')
      else c :: collapse false s'
  end.

(** [String.prototype.trim]: the white space at the start and at the end
    is removed. *)
Fixpoint trim_start (s : jsstring) : jsstring :=
  match s with
  | c :: s' => if is_whitespace c then trim_start s' else s
  | [] => []
  end.

Fixpoint trim_end (s : jsstring) : jsstring :=
  match s with
  | [] => []
  | c :: s' =>
      match trim_end s' with
      | [] => if is_whitespace c then [] else [c]
      | r => c :: r
      end
  end.

Definition trim (s : jsstring) : jsstring := trim_end (trim_start s).

(** [text.replace(/\s+/g, ' ').trim()] *)
Definition normalize (text : jsstring) : jsstring := trim (collapse false text).

(** [path.join(process.cwd(), 'kadena-docs', 'docs')] and
    [path.join(process.cwd(), 'data')], relative to the working directory. *)
Definition DOCS_DIR : jsstring := js "kadena-docs/docs".

Definition OUTPUT_DIR : jsstring := js "data".

(** [path.join(dir, file)] for a directory and a relative path in normal
    form, as [glob] gives them. *)
Definition path_join (dir file : jsstring) : jsstring := dir ++ js "/" ++ file.

(** [new Error('No documents were successfully processed')]: an error known by
    its message. *)
Definition no_documents : Error :=
  Rejected (js "No documents were successfully processed").

(** [readDocContent]: [None] is the [null] it returns when the file cannot be
    read. *)
Definition readDocContent (filePath : jsstring) : SysProg (option jsstring) :=
  sys_try_catch
    (content ← sys_call (ReadFile filePath); SRet (Some content))
    (fun error => SRet None).

Section Scraper.
(** [md.render], [cheerio.load], the removal of [pre] and [code] elements and
    [$.text()], taken together: from markdown to the text of its HTML, or an
    exception. *)
Variable html_text : jsstring -> Outcome jsstring.
(** [path.basename(filePath, '.md')] *)
Variable basename_md : jsstring -> jsstring.

Definition processMarkdown (content filePath : jsstring) : Outcome JValue :=
  text ← html_text content;
  Returned (JObj [(js "content", JStr (normalize text));
                  (js "source", JStr filePath);
                  (js "title", JStr (basename_md filePath))]).

(** The body of [for (const file of files)], with its own [try] and
    [catch]; [documents] is the array pushed to. *)
Definition scrape_file (documents : list JValue) (file : jsstring)
    : SysProg (list JValue) :=
  sys_try_catch
    (content ← readDocContent (path_join DOCS_DIR file);
     match content with
     | Some text =>
         if str_truthy text
         then processed ← sys_lift (processMarkdown text file);
              SRet (documents ++ [processed])
         else SRet documents
     | None => SRet documents
     end)
    (fun error => SRet documents).

Fixpoint scrape_files (files : list jsstring) (documents : list JValue)
    : SysProg (list JValue) :=
  match files with
  | [] => SRet documents
  | file :: rest =>
      documents' ← scrape_file documents file;
      scrape_files rest documents'
  end.

Definition scrapeKadenaDocs : SysProg (list JValue) :=
  sys_try_catch
    (_ ← sys_call (EnsureDir OUTPUT_DIR);
     files ← sys_call (Glob (js "**/*.md") DOCS_DIR);
     documents ← scrape_files files [];
     if bool_decide (length documents = 0) then SThrow no_documents
     else
       _ ← sys_call (WriteJSON (path_join OUTPUT_DIR (js "processed_docs.json"))
                       (JArr documents));
       SRet documents)
    (fun error => SThrow error).

End Scraper.

(** ** Stores for examples

    A collection held as the list of its records, ranking by insertion
    order, with a corpus file and a fixed completion.  [store_env] answers a
    query with one row per query text in each field, the shape
    [KadenaRAG.query] reads with [documents[0]] and [metadatas[0]];
    [bare_env] differs on the empty collection only, where it answers with an
    object that has no [ids]. *)

Record Stored := mkStored {
  stored_id : jsstring;
  stored_document : jsstring;
  stored_metadata : JValue
}.

Record World := mkWorld {
  records : list Stored;
  corpus : Outcome JValue;
  reply : Outcome Completion
}.

Definition rows_result (top : list Stored) (queryTexts : list jsstring) : QueryResult :=
  {| ids := Some ((fun _ => stored_id <$> top) <$> queryTexts);
     documents := (fun _ => stored_document <$> top) <$> queryTexts;
     metadatas := (fun _ => stored_metadata <$> top) <$> queryTexts |}.

Definition store_query (w : World) (queryTexts : list jsstring) (nResults : nat)
    : option QueryResult :=
  Some (rows_result (take nResults (records w)) queryTexts).

Definition bare_query (w : World) (queryTexts : list jsstring) (nResults : nat)
    : option QueryResult :=
  match records w with
  | [] => Some (mkQueryResult None [] [])
  | _ :: _ => store_query w queryTexts nResults
  end.

Definition store_add (w : World) (ids documents : list jsstring)
    (metadatas : list JValue) : World :=
  {| records := records w
                ++ zip_with (fun idoc meta => mkStored idoc.1 idoc.2 meta)
                     (zip ids documents) metadatas;
     corpus := corpus w;
     reply := reply w |}.

Definition respond_with (query : World -> list jsstring -> nat -> option QueryResult)
    (c : Cmd) (w : World) : Outcome (resp c) * World :=
  match c return Outcome (resp c) * World with
  | CollectionQuery queryTexts nResults => (Returned (query w queryTexts nResults), w)
  | CollectionAdd ids documents metadatas =>
      (Returned tt, store_add w ids documents metadatas)
  | ReadJSON _ => (corpus w, w)
  | ChatCompletionsCreate _ _ => (reply w, w)
  end.

Definition store_env : Env := mkEnv World (respond_with store_query).

Definition bare_env : Env := mkEnv World (respond_with bare_query).

Definition document (content source title : string) : JValue :=
  JObj [(js "content", JStr (js content)); (js "source", JStr (js source));
        (js "title", JStr (js title))].

Definition mining_metadata : JValue :=
  JObj [(js "source", JStr (js "mining.md")); (js "title", JStr (js "Mining"))].

Definition mining_corpus : JValue :=
  JArr [document "Kadena uses Blake2s mining." "mining.md" "Mining"].

Definition says (txt : string) : Completion :=
  mkCompletion [mkChoice (mkMessage (js "assistant") (JStr (js txt)))].

Definition empty_world : World :=
  mkWorld [] (Returned mining_corpus) (Returned (says "Blake2s.")).

Definition mining_records : list Stored :=
  [ mkStored (js "0-0") (js "Kadena uses Blake2s mining.") mining_metadata;
    mkStored (js "0-1") (js "Mining secures every chain.") mining_metadata ].

Definition mining_world : World :=
  mkWorld mining_records (Returned mining_corpus) (Returned (says "Blake2s.")).

(** A [rag] for the examples: [KadenaRAG.query] asked a string question with
    the default number of results. *)
Definition example_rag (question numResults : JValue) : Prog Answer :=
  match question with
  | JStr q => KadenaRAG.query q None
  | _ => Throw TypeError
  end.

Definition mining_question : jsstring := js "How is Kadena mined?".

Definition empty_question_body : JValue := JObj [(js "question", JStr (js ""))].

(** ** Closed forms used in the statements *)

Definition chunk_texts {M} (cs : list (Chunk M)) : list jsstring := text <$> cs.

(** The words held by a state of the loop: those of the chunks pushed so
    far, then those of the running chunk. *)
Definition held_words {M} (p : code_unit -> bool) (st : list (Chunk M) * jsstring)
    : list jsstring :=
  concat (words p <$> chunk_texts st.1) ++ words p st.2.

(** The bound on a chunk's text: within the budget, or one of the words of
    the input. *)
Definition within_budget_or_word (input : jsstring) (t : jsstring) : Prop :=
  length t <= CHUNK_SIZE \/ t ∈ split_space input.

(** What [KadenaRAG.query] returns once retrieval and completion have
    answered. *)
Definition shape (results : option QueryResult) (completion : Completion)
    : Outcome Answer :=
  choice ← first (choices completion);
  metas ← field0 metadatas results;
  sources ← map_throwing source_of metas;
  Returned (mkAnswer (content (message choice)) sources).

(** The identifiers a query result holds, over all its rows. *)
Definition returned_ids (check : option QueryResult) : list jsstring :=
  match check with
  | Some r => concat (default [] (ids r))
  | None => []
  end.

(** The identifiers of a corpus whose documents, from index [docIndex] on,
    give [counts] chunks each: ["d-0"], ..., ["d-(n-1)"] for each. *)
Fixpoint corpus_ids (docIndex : nat) (counts : list nat) : list jsstring :=
  match counts with
  | [] => []
  | n :: rest => (chunk_id docIndex <$> seq 0 n) ++ corpus_ids (S docIndex) rest
  end.

(** What [collect] has accumulated once every document gave its chunks. *)
Definition batch_of (css : list (list (Chunk JValue))) : Acc :=
  {| allChunks := concat css;
     acc_ids := corpus_ids 0 (length <$> css);
     acc_texts := text <$> concat css;
     acc_metadatas := metadata <$> concat css |}.

(** ** Closed forms used in the further properties *)

(** [s] without the spaces it starts with. *)
Fixpoint strip_spaces (s : jsstring) : jsstring :=
  match s with
  | c :: s' => if is_space c then strip_spaces s' else s
  | [] => []
  end.

(** Every two neighbours in [l] are related by [R]. *)
Definition neighbours {A} (R : A -> A -> Prop) (l : list A) : Prop :=
  forall i x y, l !! i = Some x -> l !! S i = Some y -> R x y.

(** Two texts that one chunk could not hold with a space between them. *)
Definition over_budget_together (t1 t2 : jsstring) : Prop :=
  CHUNK_SIZE < length (t1 ++ [space] ++ t2).

(** The invariant of the loop for greediness: the chunks pushed so far are
    over the budget two by two, and so are the last of them and whatever the
    running chunk is or will grow into. *)
Definition greedy_state {M} (st : list (Chunk M) * jsstring) : Prop :=
  neighbours over_budget_together (chunk_texts st.1)
  /\ forall t, last (chunk_texts st.1) = Some t -> CHUNK_SIZE < length t + 1 + length st.2.

(** A document [chunk_document] can chunk: reading [content] off it gives a
    string. *)
Definition has_string_content (doc : JValue) : Prop :=
  exists s, get_prop doc (js "content") = Returned (JStr s).

(** A document whose [content] is a string of spaces, the empty string
    included. *)
Definition blank_document (doc : JValue) : Prop :=
  exists n, get_prop doc (js "content") = Returned (JStr (replicate n space)).

(** [null] and [undefined], off which no property can be read. *)
Definition nullish (v : JValue) : Prop := v = JNull \/ v = JUndefined.

(** The properties of an object; a value that is no object has none to
    look up. *)
Definition props_of (v : JValue) : list (jsstring * JValue) :=
  match v with JObj props => props | _ => [] end.

(** The [title] and [source] read off a metadata value that is not
    [nullish]. *)
Definition project_source (meta : JValue) : Source :=
  {| title := lookup_prop (js "title") (props_of meta);
     source := lookup_prop (js "source") (props_of meta) |}.

(** The position of chunk [c] of document [d] in the batch. *)
Definition position (css : list (list (Chunk JValue))) (d c : nat) : nat :=
  sum_list (length <$> take d css) + c.

Definition is_query (c : Cmd) : bool :=
  match c with CollectionQuery _ _ => true | _ => false end.

Definition is_chat (c : Cmd) : bool :=
  match c with ChatCompletionsCreate _ _ => true | _ => false end.

(** [bare_env] with the calls chosen by [fails] rejected. *)
Definition unavailable : Error := Rejected (js "unavailable").

Definition rejecting (fails : Cmd -> bool) (c : Cmd) (w : World)
    : Outcome (resp c) * World :=
  if fails c then (Thrown unavailable, w) else respond_with bare_query c w.

Definition rejecting_env (fails : Cmd -> bool) : Env := mkEnv World (rejecting fails).

(** What follows the first word in a joined word list. *)
Definition tail_join (l : list jsstring) : jsstring :=
  match l with [] => [] | _ :: _ => space :: join [space] l end.

(** The string of the words of [s] joined by single spaces, for an [s] read
    from inside its first word. *)
Definition join_from_word (s : jsstring) : jsstring :=
  match split_by is_whitespace s with
  | w :: rest => w ++ tail_join (filter (fun w => w <> []) rest)
  | [] => []
  end.

Definition sys_trace {R : Type} (E : SysEnv) (p : SysProg R) (s : SysSt E)
    : list SysCmd :=
  (sys_run E p s).1.1.

Definition sys_outcome {R : Type} (E : SysEnv) (p : SysProg R) (s : SysSt E)
    : Outcome R :=
  (sys_run E p s).1.2.

(** The [source] of a document. *)
Definition source_file (doc : JValue) : JValue :=
  lookup_prop (js "source") (props_of doc).

(** The read of a file of the documentation. *)
Definition read_of (file : jsstring) : SysCmd := ReadFile (path_join DOCS_DIR file).

Definition is_write (c : SysCmd) : bool :=
  match c with WriteJSON _ _ => true | _ => false end.

Section ScraperForms.
Variable html_text : jsstring -> Outcome jsstring.
Variable basename_md : jsstring -> jsstring.

(** The documents after one file: one more when the file was read, is not
    empty and its markdown gave a text. *)
Definition scraped (documents : list JValue) (file : jsstring)
    (read : Outcome jsstring) : list JValue :=
  match read with
  | Returned text =>
      if str_truthy text
      then match processMarkdown html_text basename_md text file with
           | Returned processed => documents ++ [processed]
           | Thrown _ => documents
           end
      else documents
  | Thrown _ => documents
  end.

(** A document as the scraper makes them. *)
Definition scraped_document (doc : JValue) : Prop :=
  exists text file,
    doc = JObj [(js "content", JStr (normalize text));
                (js "source", JStr file);
                (js "title", JStr (basename_md file))].

End ScraperForms.

(** A file system for examples: the markdown files of the documentation by
    their paths under [DOCS_DIR], what was written, and the world of the
    query path; the collection can always be got. *)
Record Disk := mkDisk {
  markdown : list (jsstring * jsstring);
  written : list (jsstring * JValue);
  world : World
}.

Fixpoint disk_lookup (path : jsstring) (files : list (jsstring * jsstring))
    : Outcome jsstring :=
  match files with
  | [] => Thrown (Rejected (js "ENOENT"))
  | (file, text) :: rest =>
      if bool_decide (path_join DOCS_DIR file = path) then Returned text
      else disk_lookup path rest
  end.

Definition disk_respond (c : SysCmd) (d : Disk) : Outcome (sys_resp c) * Disk :=
  match c return Outcome (sys_resp c) * Disk with
  | GetCollection _ | CreateCollection _ | EnsureDir _ => (Returned tt, d)
  | Glob _ _ => (Returned (fst <$> markdown d), d)
  | ReadFile path => (disk_lookup path (markdown d), d)
  | WriteJSON path value =>
      (Returned tt, mkDisk (markdown d) (written d ++ [(path, value)]) (world d))
  | Service c =>
      let '(o, w) := respond bare_env c (world d) in
      (o, mkDisk (markdown d) (written d) w)
  end.

Definition disk_env : SysEnv := mkSysEnv Disk disk_respond.

(** Plain text taken for its own rendering, and the path taken for its base
    name. *)
Definition plain_text (content : jsstring) : Outcome jsstring := Returned content.

Definition mining_disk : Disk :=
  mkDisk [(js "mining.md", js "Kadena  uses Blake2s mining. "); (js "empty.md", js "")]
    [] empty_world.

Definition plain_name (filePath : jsstring) : jsstring := filePath.

(** A corpus of one document that holds two spaces. *)
Definition blank_world : World :=
  mkWorld [] (Returned (JArr [document "  " "blank.md" "blank"]))
    (Returned (says "")).

(** A documentation directory whose files cannot be read. *)
Definition unreadable_respond (files : list jsstring) (c : SysCmd) (s : unit)
    : Outcome (sys_resp c) * unit :=
  match c return Outcome (sys_resp c) * unit with
  | GetCollection _ | CreateCollection _ | EnsureDir _ | WriteJSON _ _ =>
      (Returned tt, s)
  | Glob _ _ => (Returned files, s)
  | ReadFile _ => (Thrown (Rejected (js "EACCES")), s)
  | Service _ => (Thrown unavailable, s)
  end.

Definition unreadable_env (files : list jsstring) : SysEnv :=
  mkSysEnv unit (unreadable_respond files).

Definition mining_body : JValue := JObj [(js "question", JStr mining_question)].

Definition mining_chunk : Chunk JValue :=
  mkChunk (js "Kadena uses Blake2s mining.") mining_metadata.

Definition mining_document : JValue :=
  document "Kadena uses Blake2s mining." "mining.md" "Mining".

(** A long piece, met by the loop, is held by a state when it is the text of
    a chunk pushed or the running chunk itself. *)
Definition holds_piece {M} (st : list (Chunk M) * jsstring) (w : jsstring) : Prop :=
  w ∈ chunk_texts st.1 \/ w = st.2.

(** Three hundred words [ab] with a line feed between two of them, and no
    space. *)
Definition lf_words : jsstring := join [newline] (replicate 300 (js "ab")).

(** A word of 501 code units between two short ones. *)
Definition long_word : jsstring := replicate 501 120%N.

Definition long_word_input : jsstring := js "ab " ++ long_word ++ js " cd".

(** * Properties *)

(** ** Splitting and joining *)

Lemma split_by_nonempty p s : split_by p s <> [].
Proof. destruct s as [|c s]; simpl; [done|]. by destruct (p c), (split_by p s). Qed.

Lemma split_by_app_sep p a c b :
  p c = true -> split_by p (a ++ c :: b) = split_by p a ++ split_by p b.
Proof.
  intros Hc. induction a as [|x a IH]; simpl.
  - by rewrite Hc.
  - rewrite IH. destruct (p x); [done|].
    pose proof (split_by_nonempty p a). by destruct (split_by p a).
Qed.

Lemma words_nil p : words p [] = [].
Proof. reflexivity. Qed.

Lemma words_app_sep p a c b :
  p c = true -> words p (a ++ c :: b) = words p a ++ words p b.
Proof. intros Hc. unfold words. by rewrite split_by_app_sep, filter_app. Qed.

Lemma words_join p sep c l :
  sep = [c] -> p c = true -> words p (join sep l) = concat (words p <$> l).
Proof.
  intros -> Hc. induction l as [|a l IH]; [done|].
  destruct l as [|b l].
  - simpl. by rewrite app_nil_r.
  - change (join [c] (a :: b :: l)) with (a ++ c :: join [c] (b :: l)).
    rewrite words_app_sep, IH by done. done.
Qed.

Lemma join_split_by c p s :
  (forall x, p x = true <-> x = c) -> join [c] (split_by p s) = s.
Proof.
  intros Hp. induction s as [|x s IH]; [done|]. simpl.
  pose proof (split_by_nonempty p s) as Hne.
  destruct (p x) eqn:Hx.
  - apply Hp in Hx as ->. destruct (split_by p s) as [|w ws]; [done|].
    simpl in *. by rewrite IH.
  - destruct (split_by p s) as [|w ws]; [done|].
    destruct ws; simpl in *; by rewrite <- IH.
Qed.

Lemma is_space_spec x : is_space x = true <-> x = space.
Proof. unfold is_space. apply N.eqb_eq. Qed.

Lemma join_split_space s : join [space] (split_space s) = s.
Proof. apply join_split_by, is_space_spec. Qed.

Lemma split_space_no_space s w : w ∈ split_space s -> space ∉ w.
Proof.
  unfold split_space. revert w. induction s as [|x s IH]; simpl; intros w Hw.
  - apply list_elem_of_singleton in Hw as ->. apply not_elem_of_nil.
  - pose proof (split_by_nonempty is_space s) as Hne.
    destruct (is_space x) eqn:Hx.
    + apply elem_of_cons in Hw as [->|Hw]; [apply not_elem_of_nil|by apply IH].
    + destruct (split_by is_space s) as [|v vs]; [done|].
      apply elem_of_cons in Hw as [->|Hw].
      * intros [<-|Hin]%elem_of_cons.
        -- by rewrite (proj2 (is_space_spec space)) in Hx.
        -- revert Hin. apply IH. left.
      * apply IH. by right.
Qed.

(** ** The chunker *)

Lemma fold_left_invariant {A B} (P : A -> Prop) (Q : B -> Prop) (f : A -> B -> A) l a :
  (forall a b, P a -> Q b -> P (f a b)) -> Forall Q l -> P a -> P (fold_left f l a).
Proof.
  intros Hf Hl. revert a. induction Hl as [|b l Hb _ IH]; simpl; [done|].
  intros a Ha. by apply IH, Hf.
Qed.

Section ChunkerProperties.
Context {M : Type}.
Implicit Types (chunks : list (Chunk M)) (metadata : M).

Lemma chunk_texts_push chunks cur metadata :
  chunk_texts (push_if_truthy chunks cur metadata)
  = chunk_texts chunks ++ (if str_truthy cur then [cur] else []).
Proof.
  unfold push_if_truthy, chunk_texts.
  destruct (str_truthy cur); [by rewrite fmap_app|by rewrite app_nil_r].
Qed.

Lemma held_words_push p chunks cur metadata :
  concat (words p <$> chunk_texts (push_if_truthy chunks cur metadata))
  = held_words p (chunks, cur).
Proof.
  rewrite chunk_texts_push. unfold held_words. simpl.
  rewrite fmap_app, concat_app. f_equal.
  destruct cur; simpl; [done|]. by rewrite app_nil_r.
Qed.

Lemma held_words_step p metadata st word :
  p space = true ->
  held_words p (chunk_step metadata st word) = held_words p st ++ words p word.
Proof.
  intros Hp. destruct st as [chunks cur]. unfold chunk_step.
  case_bool_decide.
  - unfold held_words. simpl. rewrite <- (assoc_L (++)). f_equal.
    destruct cur as [|c cur]; [done|].
    change (str_truthy (c :: cur)) with true. cbv iota.
    change ((c :: cur) ++ [space] ++ word) with ((c :: cur) ++ space :: word).
    by apply words_app_sep.
  - unfold held_words at 1. simpl. by rewrite held_words_push.
Qed.

Lemma held_words_fold p metadata ws st :
  p space = true ->
  held_words p (fold_left (chunk_step metadata) ws st)
  = held_words p st ++ concat (words p <$> ws).
Proof.
  intros Hp. revert st. induction ws as [|w ws IH]; intros st; simpl.
  - by rewrite app_nil_r.
  - by rewrite IH, held_words_step, <- (assoc_L (++)).
Qed.

Lemma splitIntoChunks_words p text metadata :
  p space = true ->
  words p (join [space] (chunk_texts (splitIntoChunks text metadata))) = words p text.
Proof.
  intros Hp. rewrite (words_join p [space] space) by done.
  unfold splitIntoChunks.
  pose proof (held_words_fold p metadata (split_space text) ([], []) Hp) as H.
  destruct (fold_left _ _ _) as [chunks cur].
  rewrite held_words_push, H. unfold held_words. simpl.
  rewrite <- (words_join p [space] space) by done.
  by rewrite join_split_space.
Qed.

Lemma chunk_step_bound text metadata st word :
  word ∈ split_space text ->
  Forall (within_budget_or_word text) (chunk_texts st.1) ->
  within_budget_or_word text st.2 ->
  Forall (within_budget_or_word text) (chunk_texts (chunk_step metadata st word).1)
  /\ within_budget_or_word text (chunk_step metadata st word).2.
Proof.
  intros Hw Hchunks Hcur. destruct st as [chunks cur]. unfold chunk_step.
  case_bool_decide as Hlen; simpl in *.
  - split; [done|]. left.
    destruct cur; simpl in *; rewrite ?length_app in *; simpl in *; lia.
  - split; [|by right]. rewrite chunk_texts_push.
    apply Forall_app. split; [done|]. destruct (str_truthy cur); by constructor.
Qed.

Lemma splitIntoChunks_bound text metadata :
  Forall (within_budget_or_word text) (chunk_texts (splitIntoChunks text metadata)).
Proof.
  unfold splitIntoChunks.
  assert (Forall (within_budget_or_word text)
            (chunk_texts (fold_left (chunk_step metadata) (split_space text) ([], [])).1)
          /\ within_budget_or_word text
               (fold_left (chunk_step metadata) (split_space text) ([], [])).2) as H.
  { apply (fold_left_invariant
             (fun st => Forall (within_budget_or_word text) (chunk_texts st.1)
                        /\ within_budget_or_word text st.2)
             (fun w => w ∈ split_space text)).
    - intros st w [? ?] ?. by apply chunk_step_bound.
    - by apply Forall_forall.
    - split; [constructor|]. left. simpl. unfold CHUNK_SIZE. lia. }
  destruct (fold_left _ _ _) as [chunks cur]. destruct H as [Hchunks Hcur].
  rewrite chunk_texts_push. apply Forall_app. split; [done|].
  destruct (str_truthy cur); by constructor.
Qed.

Lemma chunk_step_truthy metadata st word :
  Forall (fun t => t <> []) (chunk_texts st.1) ->
  Forall (fun t => t <> []) (chunk_texts (chunk_step metadata st word).1).
Proof.
  destruct st as [chunks cur]. unfold chunk_step. intros H.
  case_bool_decide; simpl in *; [done|].
  rewrite chunk_texts_push. apply Forall_app. split; [done|].
  destruct cur; by repeat constructor.
Qed.

Lemma splitIntoChunks_truthy text metadata :
  Forall (fun t => t <> []) (chunk_texts (splitIntoChunks text metadata)).
Proof.
  unfold splitIntoChunks.
  assert (Forall (fun t => t <> [])
            (chunk_texts (fold_left (chunk_step metadata) (split_space text) ([], [])).1))
    as H.
  { apply (fold_left_invariant
             (fun st => Forall (fun t => t <> []) (chunk_texts st.1)) (fun _ => True)).
    - intros st w ? _. by apply chunk_step_truthy.
    - by apply Forall_forall.
    - constructor. }
  destruct (fold_left _ _ _) as [chunks cur]. simpl in H.
  rewrite chunk_texts_push. apply Forall_app. split; [done|].
  destruct cur; by repeat constructor.
Qed.

Lemma splitIntoChunks_metadata text md :
  Forall (fun c : Chunk M => metadata c = md) (splitIntoChunks text md).
Proof.
  unfold splitIntoChunks.
  assert (Forall (fun c : Chunk M => metadata c = md)
            (fold_left (chunk_step md) (split_space text) ([], [])).1) as H.
  { apply (fold_left_invariant
             (fun st => Forall (fun c : Chunk M => metadata c = md) st.1)
             (fun _ => True)).
    - intros [chunks cur] w H _. unfold chunk_step.
      case_bool_decide; simpl in *; [done|]. unfold push_if_truthy.
      destruct (str_truthy cur); [|done]. apply Forall_app. by repeat constructor.
    - by apply Forall_forall.
    - constructor. }
  destruct (fold_left _ _ _) as [chunks cur]. simpl in H. unfold push_if_truthy.
  destruct (str_truthy cur); [|done]. apply Forall_app. by repeat constructor.
Qed.

Lemma split_space_spaces n : split_space (replicate n space) = replicate (S n) [].
Proof. unfold split_space. induction n as [|n IH]; [done|]. simpl. by rewrite IH. Qed.

Lemma chunk_fold_empty_words metadata n :
  fold_left (chunk_step metadata) (replicate n []) ([], []) = ([], []).
Proof. induction n as [|n IH]; [done|]. simpl. by rewrite IH. Qed.

Lemma splitIntoChunks_spaces n metadata : splitIntoChunks (replicate n space) metadata = [].
Proof.
  unfold splitIntoChunks. by rewrite split_space_spaces, chunk_fold_empty_words.
Qed.

(** C2. Joining the texts of the chunks of [text] with single spaces gives a
    string with the same white-space-delimited word sequence as [text]: the
    same words, in the same order, each as often.  It holds for the
    white space of ECMAScript and for the space character alone, the
    delimiter the chunker itself splits on. *)
Theorem splitIntoChunks_preserves_words text metadata :
  words is_whitespace (join [space] (chunk_texts (splitIntoChunks text metadata)))
  = words is_whitespace text
  /\ words is_space (join [space] (chunk_texts (splitIntoChunks text metadata)))
     = words is_space text.
Proof. split; by apply splitIntoChunks_words. Qed.

Lemma chunk_step_keeps_piece metadata st word w :
  CHUNK_SIZE < length w -> holds_piece st w ->
  holds_piece (chunk_step metadata st word) w.
Proof.
  destruct st as [chunks cur]. unfold holds_piece, chunk_step. simpl.
  intros Hlong Hheld. case_bool_decide as Hfit; simpl.
  - destruct Hheld as [Hin| ->]; [by left|].
    rewrite length_app in Hfit. lia.
  - left. rewrite chunk_texts_push. apply elem_of_app.
    destruct Hheld as [Hin| ->]; [by left|]. right.
    destruct cur as [|c cur]; [simpl in Hlong; lia|]. simpl. left.
Qed.

Lemma chunk_step_takes_piece metadata st word :
  CHUNK_SIZE < length word -> holds_piece (chunk_step metadata st word) word.
Proof.
  destruct st as [chunks cur]. unfold holds_piece, chunk_step.
  intros Hlong. case_bool_decide as Hfit; simpl; [|by right].
  rewrite !length_app in Hfit. lia.
Qed.

Lemma chunk_fold_keeps_piece metadata l st w :
  CHUNK_SIZE < length w -> holds_piece st w ->
  holds_piece (fold_left (chunk_step metadata) l st) w.
Proof.
  intros Hlong. revert st. induction l as [|x l IH]; intros st Hheld; [done|].
  simpl. by apply IH, chunk_step_keeps_piece.
Qed.

Lemma chunk_fold_takes_piece metadata l st w :
  w ∈ l -> CHUNK_SIZE < length w ->
  holds_piece (fold_left (chunk_step metadata) l st) w.
Proof.
  intros Hin Hlong. revert st. induction l as [|x l IH]; intros st.
  - by apply not_elem_of_nil in Hin.
  - simpl. apply elem_of_cons in Hin as [->|Hin].
    + by apply chunk_fold_keeps_piece, chunk_step_takes_piece.
    + by apply IH.
Qed.

Lemma splitIntoChunks_long_piece input metadata w :
  w ∈ split_space input -> CHUNK_SIZE < length w ->
  w ∈ chunk_texts (splitIntoChunks input metadata).
Proof.
  intros Hin Hlong. unfold splitIntoChunks.
  pose proof (chunk_fold_takes_piece metadata (split_space input) ([], []) w Hin Hlong)
    as Hheld.
  destruct (fold_left _ _ _) as [chunks cur]. unfold holds_piece in Hheld. simpl in Hheld.
  rewrite chunk_texts_push. apply elem_of_app.
  destruct Hheld as [?| ->]; [by left|]. right.
  destruct cur as [|c cur]; [simpl in Hlong; lia|]. simpl. left.
Qed.

(** C3, as amended.  Every chunk's text has at most 500 code units, unless it
    is exactly one piece of the input between space characters (U+0020), a
    piece that holds no space and is itself longer than 500; and every piece
    of the input between space characters that is longer than 500 is the
    text of a chunk of its own. *)
Theorem splitIntoChunks_budget input metadata :
  Forall (fun c : Chunk M => length (text c) <= 500
                   \/ ((text c ∈ split_space input)
                       /\ (space ∉ text c)
                       /\ 500 < length (text c)))
    (splitIntoChunks input metadata)
  /\ forall w,
       w ∈ split_space input -> 500 < length w ->
       w ∈ chunk_texts (splitIntoChunks input metadata).
Proof.
  split; [|intros w; apply splitIntoChunks_long_piece].
  pose proof (splitIntoChunks_bound input metadata) as H.
  unfold chunk_texts in H. rewrite Forall_fmap in H.
  eapply Forall_impl; [exact H|]. intros c [Hle|Hin]; simpl in *.
  - left. exact Hle.
  - destruct (decide (length (text c) <= 500)) as [?|Hgt]; [by left|].
    right. split; [done|]. split; [by eapply split_space_no_space|lia].
Qed.

(** C9. No chunk has the empty string as its text, whatever the input; an
    input of space characters only (the empty input included) gives no chunk
    at all. *)
Theorem splitIntoChunks_no_empty_chunk input metadata :
  Forall (fun c : Chunk M => text c <> []) (splitIntoChunks input metadata)
  /\ (forall n, splitIntoChunks (replicate n space) metadata = []).
Proof.
  split; [|intros n; apply splitIntoChunks_spaces].
  pose proof (splitIntoChunks_truthy input metadata) as H.
  unfold chunk_texts in H. by rewrite Forall_fmap in H.
Qed.

End ChunkerProperties.

Example splitIntoChunks_keeps_inner_spaces :
  chunk_texts (splitIntoChunks (js "  ab  cd ") tt) = [js "ab  cd "].
Proof. reflexivity. Qed.

Example splitIntoChunks_empty_text : splitIntoChunks (js "") tt = [].
Proof. reflexivity. Qed.

(** A word of 501 code units is a chunk of its own, between its neighbours. *)
Example splitIntoChunks_long_word :
  chunk_texts (splitIntoChunks (js "ab " ++ replicate 501 120%N ++ js " cd") tt)
  = [js "ab"; replicate 501 120%N; js "cd"].
Proof. vm_compute. reflexivity. Qed.

(** A word of exactly 500 code units fits the budget. *)
Example splitIntoChunks_word_at_budget :
  chunk_texts (splitIntoChunks (replicate 500 120%N ++ js " cd") tt)
  = [replicate 500 120%N; js "cd"].
Proof. vm_compute. reflexivity. Qed.

(** ** Programs and their runs *)

Lemma run_bind {A B} E (p : Prog A) (f : A -> Prog B) s :
  run E (p ≫= f) s
  = match run E p s with
    | (tr, Returned a, s') => let '(tr', o, s'') := run E (f a) s' in (tr ++ tr', o, s'')
    | (tr, Thrown e, s') => (tr, Thrown e, s')
    end.
Proof.
  unfold mbind, Prog_bind. revert s.
  induction p as [a|e|c k IHk h IHh]; intros s; simpl.
  - by destruct (run E (f a) s) as [[??]?].
  - done.
  - destruct (respond E c s) as [[x|e] s'].
    + rewrite IHk. destruct (run E (k x) s') as [[tr [a|e]] s'']; [|done].
      by destruct (run E (f a) s'') as [[??]?].
    + rewrite IHh. destruct (run E (h e) s') as [[tr [a|e']] s'']; [|done].
      by destruct (run E (f a) s'') as [[??]?].
Qed.

Lemma run_try_catch {R} E (p : Prog R) (handler : Error -> Prog R) s :
  run E (try_catch p handler) s
  = match run E p s with
    | (tr, Returned r, s') => (tr, Returned r, s')
    | (tr, Thrown e, s') =>
        let '(tr', o, s'') := run E (handler e) s' in (tr ++ tr', o, s'')
    end.
Proof.
  revert s. induction p as [r|e|c k IHk h IHh]; intros s; simpl.
  - done.
  - by destruct (run E (handler e) s) as [[??]?].
  - destruct (respond E c s) as [[x|e] s'].
    + rewrite IHk. destruct (run E (k x) s') as [[tr [r|e]] s'']; [done|].
      by destruct (run E (handler e) s'') as [[??]?].
    + rewrite IHh. destruct (run E (h e) s') as [[tr [r|e']] s'']; [done|].
      by destruct (run E (handler e') s'') as [[??]?].
Qed.

(** Catching only to throw again changes nothing. *)
Lemma run_rethrow {R} E (p : Prog R) s :
  run E (try_catch p (fun error => Throw error)) s = run E p s.
Proof.
  rewrite run_try_catch. destruct (run E p s) as [[tr [r|e]] s']; [done|].
  simpl. by rewrite app_nil_r.
Qed.

Lemma run_call E c s :
  run E (call c) s = ([c], (respond E c s).1, (respond E c s).2).
Proof. simpl. by destruct (respond E c s) as [[x|e] s']. Qed.

Lemma run_lift {A} E (o : Outcome A) s : run E (lift o) s = ([], o, s).
Proof. by destruct o. Qed.

(** ** Collecting the batch *)

Lemma forEach_push_chunk docIndex cs c0 acc :
  forEach_from (push_chunk docIndex) cs c0 acc
  = Returned {| allChunks := allChunks acc;
                acc_ids := acc_ids acc ++ (chunk_id docIndex <$> seq c0 (length cs));
                acc_texts := acc_texts acc ++ (text <$> cs);
                acc_metadatas := acc_metadatas acc ++ (metadata <$> cs) |}.
Proof.
  revert c0 acc. induction cs as [|c cs IH]; intros c0 acc; simpl.
  - rewrite !app_nil_r. by destruct acc.
  - rewrite IH. simpl. by rewrite <- !(assoc_L (++)).
Qed.

Lemma map_throwing_Forall2 {A B} (f : A -> Outcome B) l ys :
  map_throwing f l = Returned ys <-> Forall2 (fun x y => f x = Returned y) l ys.
Proof.
  revert ys. induction l as [|x l IH]; intros ys; simpl.
  - split; [intros [= <-]; constructor|by inversion 1].
  - destruct (f x) as [y|e] eqn:Hx; simpl.
    + destruct (map_throwing f l) as [ys'|e]; simpl.
      * split.
        -- intros [= <-]. constructor; [done|]. by apply IH.
        -- inversion 1 as [|???? Hy Hl]; subst. apply IH in Hl.
           rewrite Hx in Hy. congruence.
      * split; [done|]. inversion 1 as [|???? Hy Hl]; subst. by apply IH in Hl.
    + split; [done|]. inversion 1; congruence.
Qed.

Lemma forEach_push_document docs d0 acc :
  forEach_from push_document docs d0 acc
  = match map_throwing chunk_document docs with
    | Returned css =>
        Returned {| allChunks := allChunks acc ++ concat css;
                    acc_ids := acc_ids acc ++ corpus_ids d0 (length <$> css);
                    acc_texts := acc_texts acc ++ (text <$> concat css);
                    acc_metadatas := acc_metadatas acc ++ (metadata <$> concat css) |}
    | Thrown e => Thrown e
    end.
Proof.
  revert d0 acc. induction docs as [|doc docs IH]; intros d0 acc; simpl.
  - rewrite !app_nil_r. by destruct acc.
  - unfold push_document at 1. destruct (chunk_document doc) as [cs|e]; simpl; [|done].
    unfold forEach. rewrite forEach_push_chunk. simpl. rewrite IH.
    destruct (map_throwing chunk_document docs) as [css|e]; simpl; [|done].
    by rewrite !fmap_app, <- !(assoc_L (++)).
Qed.

Lemma collect_array docs :
  collect (JArr docs)
  = match map_throwing chunk_document docs with
    | Returned css => Returned (batch_of css)
    | Thrown e => Thrown e
    end.
Proof. unfold collect, forEach. by rewrite forEach_push_document. Qed.

Lemma collect_Returned documents acc :
  collect documents = Returned acc ->
  exists docs css, documents = JArr docs
    /\ Forall2 (fun doc cs => chunk_document doc = Returned cs) docs css
    /\ acc = batch_of css.
Proof.
  destruct documents as [| | | | |docs|]; try done. rewrite collect_array.
  destruct (map_throwing chunk_document docs) as [css|e] eqn:H; [|done].
  intros [= <-]. exists docs, css. by rewrite <- map_throwing_Forall2.
Qed.

(** ** Identifiers *)

Lemma js_inj s1 s2 : js s1 = js s2 -> s1 = s2.
Proof.
  unfold js. intros H.
  assert (Inj (=) (=) (fun a => N_of_ascii a)) as Hinj.
  { intros a b Hab. by rewrite <- (ascii_N_embedding a), <- (ascii_N_embedding b), Hab. }
  apply (list_fmap_eq_inj _ Hinj) in H.
  rewrite <- (string_of_list_ascii_of_string s1),
    <- (string_of_list_ascii_of_string s2). by rewrite H.
Qed.

Lemma js_cons a s : js (String a s) = N_of_ascii a :: js s.
Proof. reflexivity. Qed.

Lemma pretty_N_char_no_dash x : N_of_ascii (pretty_N_char x) <> dash.
Proof. unfold pretty_N_char. by repeat case_match. Qed.

Lemma pretty_N_go_no_dash x s : dash ∉ js s -> dash ∉ js (pretty_N_go x s).
Proof.
  revert s. induction (N.lt_wf_0 x) as [x _ IH]; intros s Hs.
  destruct (decide (x = 0%N)) as [->|Hx].
  - by rewrite pretty_N_go_0.
  - rewrite pretty_N_go_step by lia. apply IH.
    + apply N.div_lt; lia.
    + rewrite js_cons. intros [Heq|Hin]%elem_of_cons; [|done].
      by apply (pretty_N_char_no_dash (x `mod` 10)%N).
Qed.

Lemma index_string_no_dash i : dash ∉ index_string i.
Proof.
  unfold index_string, pretty, pretty_nat, pretty, pretty_N.
  case_decide.
  - by intros [?|[]%not_elem_of_nil]%elem_of_cons.
  - apply pretty_N_go_no_dash, not_elem_of_nil.
Qed.

Lemma index_string_inj i j : index_string i = index_string j -> i = j.
Proof. intros H%js_inj. by apply (inj pretty). Qed.

Lemma app_sep_inj {A} (sep : A) a1 b1 a2 b2 :
  sep ∉ a1 -> sep ∉ a2 -> a1 ++ sep :: b1 = a2 ++ sep :: b2 -> a1 = a2 /\ b1 = b2.
Proof.
  revert a2. induction a1 as [|x a1 IH]; intros [|y a2] H1 H2 Heq; simpl in *.
  - by injection Heq.
  - injection Heq as <- _. by destruct H2; left.
  - injection Heq as -> _. by destruct H1; left.
  - injection Heq as -> Heq. apply not_elem_of_cons in H1 as [_ H1].
    apply not_elem_of_cons in H2 as [_ H2].
    destruct (IH a2 H1 H2 Heq) as [-> ->]. done.
Qed.

Lemma chunk_id_inj d c d' c' : chunk_id d c = chunk_id d' c' -> d = d' /\ c = c'.
Proof.
  unfold chunk_id. change (js "-") with [dash]. simpl. intros H.
  apply app_sep_inj in H as [Hd Hc]; auto using index_string_no_dash.
  split; by apply index_string_inj.
Qed.

Lemma elem_of_corpus_ids id d0 counts :
  id ∈ corpus_ids d0 counts
  <-> exists d n c, counts !! d = Some n /\ c < n /\ id = chunk_id (d0 + d) c.
Proof.
  revert d0. induction counts as [|n counts IH]; intros d0; simpl.
  - split; [by intros ?%not_elem_of_nil|]. by intros (d & n & c & ? & _).
  - rewrite elem_of_app, list_elem_of_fmap, IH. split.
    + intros [(c & -> & Hc%elem_of_seq)|(d & m & c & Hd & Hc & ->)].
      * exists 0, n, c. rewrite Nat.add_0_r. split_and!; [done|lia|done].
      * exists (S d), m, c. rewrite Nat.add_succ_r. done.
    + intros ([|d] & m & c & Hd & Hc & ->); simpl in *.
      * left. injection Hd as ->. exists c. rewrite Nat.add_0_r.
        split; [done|]. apply elem_of_seq. lia.
      * right. exists d, m, c. by rewrite Nat.add_succ_r.
Qed.

Lemma NoDup_corpus_ids d0 counts : NoDup (corpus_ids d0 counts).
Proof.
  revert d0. induction counts as [|n counts IH]; intros d0; simpl; [constructor|].
  apply NoDup_app. split_and!.
  - apply NoDup_fmap_2_strong; [|apply NoDup_seq].
    intros c c' _ _ H. by apply chunk_id_inj in H as [_ ->].
  - intros id (c & -> & _)%list_elem_of_fmap (d & m & c' & _ & _ & H)%elem_of_corpus_ids.
    apply chunk_id_inj in H as [H _]. lia.
  - apply IH.
Qed.

Lemma length_corpus_ids d0 counts : length (corpus_ids d0 counts) = sum_list counts.
Proof.
  revert d0. induction counts as [|n counts IH]; intros d0; simpl; [done|].
  by rewrite length_app, length_fmap, length_seq, IH.
Qed.

(** C4. When the documents of a corpus give the chunk sequences [css] (the
    document at index [d] gives [C_d] chunks), the identifiers collected are
    as many as the sum of the [C_d], they are pairwise distinct, and they
    are exactly the strings ["d-c"] with [d] the index of a document and
    [0 <= c < C_d]. *)
Theorem collect_identifiers docs css :
  Forall2 (fun doc cs => chunk_document doc = Returned cs) docs css ->
  exists acc,
    collect (JArr docs) = Returned acc
    /\ length (acc_ids acc) = sum_list (length <$> css)
    /\ NoDup (acc_ids acc)
    /\ forall id,
         id ∈ acc_ids acc
         <-> exists d cs c,
               d < length docs /\ css !! d = Some cs /\ c < length cs
               /\ id = js (pretty d) ++ js "-" ++ js (pretty c).
Proof.
  intros Hcss. pose proof (Forall2_length _ _ _ Hcss) as Hlen.
  apply map_throwing_Forall2 in Hcss.
  exists (batch_of css). rewrite collect_array, Hcss. split_and!.
  - done.
  - apply length_corpus_ids.
  - apply NoDup_corpus_ids.
  - intros id. simpl. rewrite elem_of_corpus_ids. split.
    + intros (d & n & c & Hd & Hc & ->).
      apply list_lookup_fmap_Some in Hd as (cs & -> & Hcs).
      exists d, cs, c. split_and!; try done.
      rewrite Hlen. by eapply lookup_lt_Some.
    + intros (d & cs & c & _ & Hcs & Hc & ->).
      exists d, (length cs), c. split_and!; try done.
      by rewrite list_lookup_fmap, Hcs.
Qed.

(** ** The ingestion run *)

Lemma processDocuments_run E s :
  run E processDocuments s
  = match respond E probe s with
    | (Thrown e, s1) => ([probe], Thrown e, s1)
    | (Returned check, s1) =>
        if probe_hit check then ([probe], Returned tt, s1)
        else
          match respond E (ReadJSON docsPath) s1 with
          | (Thrown e, s2) => ([probe; ReadJSON docsPath], Thrown e, s2)
          | (Returned documents, s2) =>
              match collect documents with
              | Thrown e => ([probe; ReadJSON docsPath], Thrown e, s2)
              | Returned acc =>
                  let add := CollectionAdd (acc_ids acc) (acc_texts acc)
                               (acc_metadatas acc) in
                  ([probe; ReadJSON docsPath; add],
                   match (respond E add s2).1 with
                   | Returned _ => Returned tt
                   | Thrown e => Thrown e
                   end,
                   (respond E add s2).2)
              end
          end
    end.
Proof.
  unfold processDocuments. rewrite run_rethrow. simpl.
  destruct (respond E probe s) as [[check|e] s1]; [|done].
  destruct (probe_hit check); [done|]. simpl.
  destruct (respond E (ReadJSON docsPath) s1) as [[documents|e] s2]; [|done].
  destruct (collect documents) as [acc|e]; [|done]. simpl.
  by destruct (respond E _ s2) as [[[]|e] s3].
Qed.

(** Every run starts with the probe. *)
Lemma processDocuments_probe_first E s :
  exists calls, trace E processDocuments s = probe :: calls.
Proof.
  unfold trace. rewrite processDocuments_run.
  destruct (respond E probe s) as [[check|e] s1]; [|by eexists].
  destruct (probe_hit check); [by eexists|].
  destruct (respond E (ReadJSON docsPath) s1) as [[documents|e] s2]; [|by eexists].
  destruct (collect documents) as [acc|e]; by eexists.
Qed.

(** C7. In every run of the ingestion, against every environment: there is
    at most one insert call; when there is one it is the last call of the
    run, after the probe and the read of the corpus file, and its batch
    holds the chunks of every document read; when the read of the corpus
    file fails, or the chunking of what was read fails, the run ends with
    that error and no insert call has been made, the environment left in the
    state the read left it in. *)
Theorem processDocuments_single_insert E s :
  length (filter (fun c => is_add c = true) (trace E processDocuments s)) <= 1
  /\ (forall ids texts metadatas,
        CollectionAdd ids texts metadatas ∈ trace E processDocuments s ->
        exists check s1 docs s2 css,
          respond E probe s = (Returned check, s1)
          /\ probe_hit check = false
          /\ respond E (ReadJSON docsPath) s1 = (Returned (JArr docs), s2)
          /\ Forall2 (fun doc cs => chunk_document doc = Returned cs) docs css
          /\ ids = corpus_ids 0 (length <$> css)
          /\ texts = text <$> concat css
          /\ metadatas = metadata <$> concat css
          /\ trace E processDocuments s
             = [probe; ReadJSON docsPath; CollectionAdd ids texts metadatas])
  /\ (forall check s1 read s2 e,
        respond E probe s = (Returned check, s1) ->
        probe_hit check = false ->
        respond E (ReadJSON docsPath) s1 = (read, s2) ->
        read = Thrown e \/ (exists documents, read = Returned documents
                                              /\ collect documents = Thrown e) ->
        run E processDocuments s = ([probe; ReadJSON docsPath], Thrown e, s2)).
Proof.
  unfold trace. rewrite processDocuments_run. split_and!.
  - destruct (respond E probe s) as [[check|e] s1]; [|simpl; lia].
    destruct (probe_hit check); [simpl; lia|].
    destruct (respond E (ReadJSON docsPath) s1) as [[documents|e] s2]; [|simpl; lia].
    destruct (collect documents) as [acc|e]; simpl; lia.
  - intros i t m Hin.
    destruct (respond E probe s) as [[check|e] s1]; unfold probe in Hin;
      [|by apply list_elem_of_singleton in Hin].
    destruct (probe_hit check) eqn:Hhit; [by apply list_elem_of_singleton in Hin|].
    destruct (respond E (ReadJSON docsPath) s1) as [[documents|e] s2] eqn:Hread.
    + destruct (collect documents) as [acc|e] eqn:Hacc.
      * simpl in Hin.
        apply elem_of_cons in Hin as [|Hin]; [done|].
        apply elem_of_cons in Hin as [|Hin]; [done|].
        apply list_elem_of_singleton in Hin. injection Hin as -> -> ->.
        apply collect_Returned in Hacc as (docs & css & -> & Hcss & ->).
        exists check, s1, docs, s2, css. by split_and!.
      * simpl in Hin.
        apply elem_of_cons in Hin as [|Hin]; [done|].
        by apply list_elem_of_singleton in Hin.
    + simpl in Hin.
      apply elem_of_cons in Hin as [|Hin]; [done|].
      by apply list_elem_of_singleton in Hin.
  - intros check s1 read s2 e -> -> -> [->|(documents & -> & ->)]; done.
Qed.

(** The probe answered with one row per query text, the row holding no
    identifier: the run stops after the probe and inserts nothing. *)
Lemma processDocuments_skips_on_empty_row E s r s1 :
  respond E probe s = (Returned (Some r), s1) ->
  ids r = Some [[]] ->
  run E processDocuments s = ([probe], Returned tt, s1).
Proof.
  intros Hprobe Hids. rewrite processDocuments_run, Hprobe.
  unfold probe_hit. by rewrite Hids.
Qed.

(** ** The query engine *)

Lemma Vectorizer_query_run E queryText numResults s :
  run E (Vectorizer.query queryText numResults) s
  = ([CollectionQuery [queryText] (default 5 numResults)],
     (respond E (CollectionQuery [queryText] (default 5 numResults)) s).1,
     (respond E (CollectionQuery [queryText] (default 5 numResults)) s).2).
Proof.
  unfold Vectorizer.query. rewrite run_rethrow.
  apply (run_call E (CollectionQuery [queryText] (default 5 numResults))).
Qed.

Lemma KadenaRAG_query_run E question numResults s :
  run E (KadenaRAG.query question numResults) s
  = let retrieval := CollectionQuery [question] (default 5 numResults) in
    match respond E retrieval s with
    | (Thrown e, s1) => ([retrieval], Thrown e, s1)
    | (Returned results, s1) =>
        match field0 documents results with
        | Thrown e => ([retrieval], Thrown e, s1)
        | Returned retrieved =>
            let completion :=
              ChatCompletionsCreate (js "o3-mini")
                (chat_messages (join blank_line retrieved) question) in
            match respond E completion s1 with
            | (Thrown e, s2) => ([retrieval; completion], Thrown e, s2)
            | (Returned c, s2) => ([retrieval; completion], shape results c, s2)
            end
        end
    end.
Proof.
  unfold KadenaRAG.query. rewrite run_rethrow, run_bind, Vectorizer_query_run.
  simpl. destruct (respond E _ s) as [[results|e] s1]; simpl; [|done].
  rewrite run_bind, run_lift.
  destruct (field0 documents results) as [retrieved|e]; simpl; [|done].
  destruct (respond E _ s1) as [[c|e] s2]; simpl; [|done].
  unfold shape.
  destruct (first (choices c)) as [choice|e]; simpl; [|done].
  destruct (field0 metadatas results) as [metas|e]; simpl; [|done].
  by destruct (map_throwing source_of metas) as [srcs|e].
Qed.

Lemma join_nil sep : join sep [] = [].
Proof. reflexivity. Qed.

Lemma join_cons_cons sep a b l : join sep (a :: b :: l) = a ++ sep ++ join sep (b :: l).
Proof. reflexivity. Qed.

(** C5. Whenever retrieval answers with a first row [retrieved] of chunk
    texts, the run makes exactly two calls, the retrieval and then the
    completion, and the user message of the completion carries as context
    the texts of [retrieved] in their order with a blank line between two
    neighbours; with no chunk retrieved the context is the empty string and
    the completion is called all the same. *)
Theorem KadenaRAG_query_context E s question numResults results s1 retrieved :
  respond E (CollectionQuery [question] (default 5 numResults)) s
  = (Returned results, s1) ->
  field0 documents results = Returned retrieved ->
  trace E (KadenaRAG.query question numResults) s
  = [CollectionQuery [question] (default 5 numResults);
     ChatCompletionsCreate (js "o3-mini")
       [mkMessage (js "system") (JStr system_prompt);
        mkMessage (js "user")
          (JStr (js "Context: " ++ join blank_line retrieved
                 ++ [newline; newline] ++ js "Question: " ++ question))]]
  /\ (retrieved = [] ->
      trace E (KadenaRAG.query question numResults) s
      = [CollectionQuery [question] (default 5 numResults);
         ChatCompletionsCreate (js "o3-mini")
           [mkMessage (js "system") (JStr system_prompt);
            mkMessage (js "user")
              (JStr (js "Context: " ++ [] ++ [newline; newline]
                     ++ js "Question: " ++ question))]]).
Proof.
  intros Hq Hdocs.
  assert (trace E (KadenaRAG.query question numResults) s
          = [CollectionQuery [question] (default 5 numResults);
             ChatCompletionsCreate (js "o3-mini")
               (chat_messages (join blank_line retrieved) question)]) as Htr.
  { unfold trace. rewrite KadenaRAG_query_run. cbv zeta. rewrite Hq, Hdocs.
    by destruct (respond E _ s1) as [[c|e] s2]. }
  split; [exact Htr|]. intros ->. exact Htr.
Qed.

Lemma map_throwing_source_of props :
  map_throwing source_of (JObj <$> props)
  = Returned ((fun ps => mkSource (lookup_prop (js "title") ps)
                           (lookup_prop (js "source") ps)) <$> props).
Proof.
  induction props as [|ps props IH]; [done|].
  rewrite !fmap_cons. cbn [map_throwing]. by rewrite IH.
Qed.

(** C6. Whenever retrieval answers with a first row of metadata objects and
    the completion answers with a first choice, [KadenaRAG.query] returns the
    content of that choice as [answer] and, as [sources], the [title] and
    [source] of each metadata object of the row: one entry per retrieved
    chunk, in the order of the row, equal entries kept. *)
Theorem KadenaRAG_query_answer E s question numResults results s1 retrieved
    completion s2 choice props :
  respond E (CollectionQuery [question] (default 5 numResults)) s
  = (Returned results, s1) ->
  field0 documents results = Returned retrieved ->
  respond E (ChatCompletionsCreate (js "o3-mini")
               (chat_messages (join blank_line retrieved) question)) s1
  = (Returned completion, s2) ->
  first (choices completion) = Returned choice ->
  field0 metadatas results = Returned (JObj <$> props) ->
  outcome E (KadenaRAG.query question numResults) s
  = Returned
      {| answer := content (message choice);
         sources := (fun ps => {| title := lookup_prop (js "title") ps;
                                  source := lookup_prop (js "source") ps |})
                    <$> props |}.
Proof.
  intros Hq Hdocs Hc Hchoice Hmetas. unfold outcome.
  rewrite KadenaRAG_query_run. cbv zeta. rewrite Hq, Hdocs, Hc.
  unfold shape. rewrite Hchoice. cbn [mbind Outcome_bind]. rewrite Hmetas.
  cbn [mbind Outcome_bind]. by rewrite map_throwing_source_of.
Qed.

(** ** The handler *)

Section RouterProperties.
Variable rag_query : JValue -> JValue -> Prog Answer.

Lemma post_rag_run E req_body s :
  run E (post_rag rag_query req_body) s
  = match get_prop req_body (js "question"), get_prop req_body (js "numResults") with
    | Returned question, Returned numResults =>
        if truthy question then
          match run E (rag_query question (default_to (JNum 5) numResults)) s with
          | (tr, Returned response, s') =>
              (tr, Returned (mkResponse 200 (AnswerBody question (answer response)
                                               (sources response))), s')
          | (tr, Thrown e, s') =>
              (tr, Returned (mkResponse 500
                               (FailureBody (js "Failed to process question") e)), s')
          end
        else ([], Returned bad_request, s)
    | Thrown e, _ | Returned _, Thrown e =>
        ([], Returned (mkResponse 500
                         (FailureBody (js "Failed to process question") e)), s)
    end.
Proof.
  unfold post_rag. rewrite run_try_catch, run_bind, run_lift.
  destruct (get_prop req_body (js "question")) as [question|e]; [|done].
  rewrite run_bind, run_lift.
  destruct (get_prop req_body (js "numResults")) as [numResults|e]; [|done].
  destruct (truthy question); simpl; [|done].
  rewrite run_bind.
  destruct (run E (rag_query question _) s) as [[tr [response|e]] s']; simpl.
  - by rewrite app_nil_r.
  - by rewrite app_nil_r.
Qed.

Lemma get_prop_Returned v name x :
  get_prop v name = Returned x -> exists y, get_prop v (js "numResults") = Returned y.
Proof. destruct v; simpl; try done; eauto. Qed.

(** C8. A request whose body has no [question] property is answered with
    status 400 and the error [Question is required]; the handler makes no
    call at all on the way, so neither the retrieval of the vector store nor
    the completion of the language model is invoked, whatever [rag] is. *)
Theorem post_rag_without_question E req_body s :
  get_prop req_body (js "question") = Returned JUndefined ->
  run E (post_rag rag_query req_body) s
  = ([], Returned (mkResponse 400 (ErrorBody (js "Question is required"))), s).
Proof.
  intros Hq. rewrite post_rag_run, Hq.
  by destruct (get_prop_Returned _ _ _ Hq) as [y ->].
Qed.

(** C10. A request whose [question] is present and falsy is answered like
    one without a question: status 400, [Question is required], no call
    made.  A request whose [question] is truthy is handed to [rag.query] with
    that question and the number of results of the body, 5 by default, and
    answered with status 200 and the question, answer and sources when
    [rag.query] returns.  The empty string is falsy; a string that holds a
    single space is truthy. *)
Theorem post_rag_question_truthiness E req_body s question numResults :
  get_prop req_body (js "question") = Returned question ->
  get_prop req_body (js "numResults") = Returned numResults ->
  (truthy question = false ->
   run E (post_rag rag_query req_body) s
   = ([], Returned (mkResponse 400 (ErrorBody (js "Question is required"))), s))
  /\ (truthy question = true ->
      run E (post_rag rag_query req_body) s
      = match run E (rag_query question (default_to (JNum 5) numResults)) s with
        | (tr, Returned response, s') =>
            (tr, Returned (mkResponse 200 (AnswerBody question (answer response)
                                             (sources response))), s')
        | (tr, Thrown e, s') =>
            (tr, Returned (mkResponse 500
                             (FailureBody (js "Failed to process question") e)), s')
        end)
  /\ truthy (JStr (js "")) = false
  /\ truthy (JStr (js " ")) = true.
Proof.
  intros Hq Hn. split_and!; [| |done..].
  - intros Hfalsy. by rewrite post_rag_run, Hq, Hn, Hfalsy.
  - intros Htruthy. by rewrite post_rag_run, Hq, Hn, Htruthy.
Qed.

End RouterProperties.

(** ** The ingestion against the example stores *)

(** When the probe's [ids] array is not empty the run stops after the probe. *)
Lemma processDocuments_skips_on_hit E s check s1 :
  respond E probe s = (Returned check, s1) ->
  probe_hit check = true ->
  run E processDocuments s = ([probe], Returned tt, s1).
Proof. intros Hprobe Hhit. by rewrite processDocuments_run, Hprobe, Hhit. Qed.

(** C1. The collection is empty and answers the probe with one row per query
    text, the row holding no identifier; the corpus file holds one document,
    which gives the chunk ["0-0"].  The probe returns no identifier, yet the
    test of the probe succeeds and the run stops after the probe: it reads
    nothing and inserts nothing, and the collection is as empty as before. *)
Theorem processDocuments_empty_collection_not_ingested :
  (respond store_env probe empty_world).1
  = Returned (Some (mkQueryResult (Some [[]]) [[]] [[]]))
  /\ returned_ids (Some (mkQueryResult (Some [[]]) [[]] [[]])) = []
  /\ probe_hit (Some (mkQueryResult (Some [[]]) [[]] [[]])) = true
  /\ run store_env processDocuments empty_world = ([probe], Returned tt, empty_world)
  /\ records (final store_env processDocuments empty_world) = []
  /\ collect mining_corpus
     = Returned (mkAcc [mkChunk (js "Kadena uses Blake2s mining.") mining_metadata]
                   [js "0-0"] [js "Kadena uses Blake2s mining."] [mining_metadata]).
Proof. vm_compute. done. Qed.

(** Against the store that answers without [ids] while it is empty, the
    first run inserts the corpus in one call and the second run inserts
    nothing. *)
Example processDocuments_twice_bare :
  run bare_env processDocuments empty_world
  = ([probe; ReadJSON docsPath;
      CollectionAdd [js "0-0"] [js "Kadena uses Blake2s mining."] [mining_metadata]],
     Returned tt,
     mkWorld [mkStored (js "0-0") (js "Kadena uses Blake2s mining.") mining_metadata]
       (Returned mining_corpus) (Returned (says "Blake2s.")))
  /\ run bare_env processDocuments (final bare_env processDocuments empty_world)
     = ([probe], Returned tt, final bare_env processDocuments empty_world).
Proof. vm_compute. done. Qed.

(** A document without a string [content] aborts the run before any insert. *)
Example processDocuments_bad_document :
  run bare_env processDocuments
    (mkWorld [] (Returned (JArr [document "a b" "a.md" "a"; JObj []]))
       (Returned (says "")))
  = ([probe; ReadJSON docsPath], Thrown TypeError,
     mkWorld [] (Returned (JArr [document "a b" "a.md" "a"; JObj []]))
       (Returned (says ""))).
Proof. vm_compute. done. Qed.

Lemma collect_identifiers_witness :
  Forall2 (fun doc cs => chunk_document doc = Returned cs)
    [document "Kadena uses Blake2s mining." "mining.md" "Mining"]
    [[mkChunk (js "Kadena uses Blake2s mining.") mining_metadata]]
  /\ exists acc,
       collect (JArr [document "Kadena uses Blake2s mining." "mining.md" "Mining"])
       = Returned acc
       /\ length (acc_ids acc)
          = sum_list (length <$> [[mkChunk (js "Kadena uses Blake2s mining.")
                                     mining_metadata]])
       /\ NoDup (acc_ids acc)
       /\ forall id,
            id ∈ acc_ids acc
            <-> exists d cs c,
                  d < length [document "Kadena uses Blake2s mining." "mining.md" "Mining"]
                  /\ [[mkChunk (js "Kadena uses Blake2s mining.") mining_metadata]] !! d
                     = Some cs
                  /\ c < length cs
                  /\ id = js (pretty d) ++ js "-" ++ js (pretty c).
Proof.
  split.
  - repeat constructor.
  - apply collect_identifiers. repeat constructor.
Defined.

(** ** The query engine against the example store *)

Lemma KadenaRAG_query_context_witness :
  respond store_env (CollectionQuery [mining_question] (default 5 (Some 1))) mining_world
  = (Returned (store_query mining_world [mining_question] 1), mining_world)
  /\ field0 documents (store_query mining_world [mining_question] 1)
     = Returned [js "Kadena uses Blake2s mining."]
  /\ (trace store_env (KadenaRAG.query mining_question (Some 1)) mining_world
      = [CollectionQuery [mining_question] (default 5 (Some 1));
         ChatCompletionsCreate (js "o3-mini")
           [mkMessage (js "system") (JStr system_prompt);
            mkMessage (js "user")
              (JStr (js "Context: " ++ join blank_line [js "Kadena uses Blake2s mining."]
                     ++ [newline; newline] ++ js "Question: " ++ mining_question))]]
      /\ ([js "Kadena uses Blake2s mining."] = [] ->
          trace store_env (KadenaRAG.query mining_question (Some 1)) mining_world
          = [CollectionQuery [mining_question] (default 5 (Some 1));
             ChatCompletionsCreate (js "o3-mini")
               [mkMessage (js "system") (JStr system_prompt);
                mkMessage (js "user")
                  (JStr (js "Context: " ++ [] ++ [newline; newline]
                         ++ js "Question: " ++ mining_question))]])).
Proof.
  split; [reflexivity|]. split; [reflexivity|].
  apply (KadenaRAG_query_context store_env mining_world mining_question (Some 1)
           (store_query mining_world [mining_question] 1) mining_world);
    reflexivity.
Defined.

(** No chunk retrieved: the completion is called with an empty context. *)
Example KadenaRAG_query_empty_collection :
  trace store_env (KadenaRAG.query mining_question None) empty_world
  = [CollectionQuery [mining_question] 5;
     ChatCompletionsCreate (js "o3-mini")
       [mkMessage (js "system") (JStr system_prompt);
        mkMessage (js "user")
          (JStr (js "Context: " ++ [newline; newline] ++ js "Question: "
                 ++ mining_question))]]
  /\ outcome store_env (KadenaRAG.query mining_question None) empty_world
     = Returned (mkAnswer (JStr (js "Blake2s.")) []).
Proof. vm_compute. done. Qed.

Lemma KadenaRAG_query_answer_witness :
  respond store_env (CollectionQuery [mining_question] (default 5 (Some 1))) mining_world
  = (Returned (store_query mining_world [mining_question] 1), mining_world)
  /\ field0 documents (store_query mining_world [mining_question] 1)
     = Returned [js "Kadena uses Blake2s mining."]
  /\ respond store_env
       (ChatCompletionsCreate (js "o3-mini")
          (chat_messages (join blank_line [js "Kadena uses Blake2s mining."])
             mining_question)) mining_world
     = (Returned (says "Blake2s."), mining_world)
  /\ first (choices (says "Blake2s."))
     = Returned (mkChoice (mkMessage (js "assistant") (JStr (js "Blake2s."))))
  /\ field0 metadatas (store_query mining_world [mining_question] 1)
     = Returned (JObj <$> [[(js "source", JStr (js "mining.md"));
                            (js "title", JStr (js "Mining"))]])
  /\ outcome store_env (KadenaRAG.query mining_question (Some 1)) mining_world
     = Returned
         {| answer := content (message (mkChoice (mkMessage (js "assistant")
                                                    (JStr (js "Blake2s.")))));
            sources := (fun ps => {| title := lookup_prop (js "title") ps;
                                     source := lookup_prop (js "source") ps |})
                       <$> [[(js "source", JStr (js "mining.md"));
                             (js "title", JStr (js "Mining"))]] |}.
Proof.
  split_and!; [reflexivity..|].
  apply (KadenaRAG_query_answer store_env mining_world mining_question (Some 1)
           (store_query mining_world [mining_question] 1) mining_world
           [js "Kadena uses Blake2s mining."] (says "Blake2s.") mining_world);
    reflexivity.
Defined.

(** One retrieved chunk out of the store of the specification's example: it
    is the whole context and the only source. *)
Example KadenaRAG_query_mining :
  outcome store_env (KadenaRAG.query mining_question (Some 1)) mining_world
  = Returned (mkAnswer (JStr (js "Blake2s."))
                [mkSource (JStr (js "Mining")) (JStr (js "mining.md"))]).
Proof. vm_compute. done. Qed.

(** Five results asked of a store of two chunks of one document: two sources,
    equal, both kept. *)
Example KadenaRAG_query_duplicate_sources :
  outcome store_env (KadenaRAG.query mining_question None) mining_world
  = Returned (mkAnswer (JStr (js "Blake2s."))
                [mkSource (JStr (js "Mining")) (JStr (js "mining.md"));
                 mkSource (JStr (js "Mining")) (JStr (js "mining.md"))]).
Proof. vm_compute. done. Qed.

(** ** The handler against the example store *)

Lemma post_rag_without_question_witness :
  get_prop (JObj []) (js "question") = Returned JUndefined
  /\ run store_env (post_rag example_rag (JObj [])) mining_world
     = ([], Returned (mkResponse 400 (ErrorBody (js "Question is required"))),
        mining_world).
Proof.
  split; [reflexivity|].
  apply (post_rag_without_question example_rag store_env (JObj []) mining_world).
  reflexivity.
Defined.

Lemma post_rag_question_truthiness_witness :
  get_prop empty_question_body (js "question") = Returned (JStr (js ""))
  /\ get_prop empty_question_body (js "numResults") = Returned JUndefined
  /\ truthy (JStr (js "")) = false
  /\ run store_env (post_rag example_rag empty_question_body) mining_world
     = ([], Returned (mkResponse 400 (ErrorBody (js "Question is required"))),
        mining_world).
Proof.
  split_and!; [reflexivity..|].
  apply (post_rag_question_truthiness example_rag store_env empty_question_body
           mining_world (JStr (js "")) JUndefined); reflexivity.
Defined.

(** A question that is a single space passes the gate and is processed. *)
Example post_rag_space_question :
  run store_env (post_rag example_rag (JObj [(js "question", JStr (js " "))]))
    mining_world
  = ([CollectionQuery [js " "] 5;
      ChatCompletionsCreate (js "o3-mini")
        (chat_messages (join blank_line [js "Kadena uses Blake2s mining.";
                                         js "Mining secures every chain."])
           (js " "))],
     Returned (mkResponse 200
                 (AnswerBody (JStr (js " ")) (JStr (js "Blake2s."))
                    [mkSource (JStr (js "Mining")) (JStr (js "mining.md"));
                     mkSource (JStr (js "Mining")) (JStr (js "mining.md"))])),
     mining_world).
Proof. vm_compute. done. Qed.

(** Falsy questions of every kind are refused. *)
Example post_rag_falsy_questions :
  Forall (fun q => run store_env (post_rag example_rag (JObj [(js "question", q)]))
                     mining_world
                   = ([], Returned bad_request, mining_world))
    [JNull; JBool false; JNum 0; JNum (-0); JStr []].
Proof. repeat constructor. Qed.

(** * Further properties *)

(** ** The chunker: short inputs, greediness, exact round trip *)

Lemma join_snoc sep l w : l <> [] -> join sep (l ++ [w]) = join sep l ++ sep ++ w.
Proof.
  induction l as [|a l IH]; [done|]. intros _. destruct l as [|b l]; [done|].
  change (join sep ((a :: b :: l) ++ [w])) with (a ++ sep ++ join sep ((b :: l) ++ [w])).
  rewrite IH by done. rewrite join_cons_cons. by rewrite <- !(assoc_L (++)).
Qed.

Lemma join_snoc_app sep l x y : join sep (l ++ [x ++ y]) = join sep (l ++ [x]) ++ y.
Proof.
  destruct (decide (l = [])) as [->|Hne]; [done|].
  rewrite !join_snoc by done. by rewrite <- !(assoc_L (++)).
Qed.

Lemma strip_spaces_length s : length (strip_spaces s) <= length s.
Proof.
  induction s as [|c s IH]; simpl; [lia|]. destruct (is_space c); simpl; lia.
Qed.

Lemma strip_spaces_no_space w : space ∉ w -> strip_spaces w = w.
Proof.
  destruct w as [|c w]; [done|]. intros Hw. simpl.
  destruct (is_space c) eqn:Hc; [|done].
  apply is_space_spec in Hc as ->. destruct Hw. left.
Qed.

Lemma strip_spaces_app x y :
  strip_spaces (x ++ y) = match strip_spaces x with
                          | [] => strip_spaces y
                          | c :: r => (c :: r) ++ y
                          end.
Proof.
  induction x as [|c x IH]; simpl; [by destruct (strip_spaces y)|].
  destruct (is_space c); [apply IH|done].
Qed.

Lemma strip_spaces_head s c r : strip_spaces s = c :: r -> is_space c = false.
Proof.
  induction s as [|x s IH]; simpl; [done|].
  destruct (is_space x) eqn:Hx; [done|]. by intros [= <- _].
Qed.

Section ChunkerFurther.
Context {M : Type}.
Implicit Types (chunks : list (Chunk M)) (md : M).

(** While the words read so far fit the budget together, the running chunk
    is what they spell, without the leading spaces, and nothing is pushed. *)
Lemma chunk_fold_within_budget md l :
  Forall (fun w => space ∉ w) l ->
  length (join [space] l) <= CHUNK_SIZE ->
  fold_left (chunk_step md) l ([], []) = ([], strip_spaces (join [space] l)).
Proof.
  induction l as [|w l IH] using rev_ind; [done|].
  intros [Hl Hw]%Forall_app Hlen. rewrite Forall_singleton in Hw.
  rewrite fold_left_app. simpl.
  destruct l as [|a l'].
  - simpl in *. rewrite (strip_spaces_no_space w Hw).
    case_bool_decide; [done|]. done.
  - set (l := a :: l') in *. assert (l <> []) as Hne by done.
    rewrite (join_snoc [space] l w Hne) in *.
    rewrite !length_app in Hlen. change (length [space]) with 1 in Hlen.
    rewrite IH by (done || lia). unfold chunk_step.
    pose proof (strip_spaces_length (join [space] l)) as Hstrip.
    rewrite bool_decide_true
      by (rewrite !length_app; change (length [space]) with 1; lia).
    f_equal. rewrite strip_spaces_app.
    destruct (strip_spaces (join [space] l)) as [|c r] eqn:Hs; simpl.
    + by rewrite (strip_spaces_no_space w Hw).
    + done.
Qed.

Lemma Forall_split_space_no_space input : Forall (fun w => space ∉ w) (split_space input).
Proof. apply Forall_forall. intros w. apply split_space_no_space. Qed.

(** X1. An input of at most 500 code units gives at most one chunk: the
    input without its leading spaces, or no chunk when nothing is left. *)
Theorem splitIntoChunks_short_input input md :
  length input <= CHUNK_SIZE ->
  chunk_texts (splitIntoChunks input md)
  = match strip_spaces input with
    | [] => []
    | t => [t]
    end.
Proof.
  intros Hlen. unfold splitIntoChunks.
  rewrite chunk_fold_within_budget.
  - rewrite join_split_space, chunk_texts_push. by destruct (strip_spaces input).
  - apply Forall_split_space_no_space.
  - by rewrite join_split_space.
Qed.

Lemma neighbours_snoc {A} (R : A -> A -> Prop) l y :
  neighbours R l -> (forall x, last l = Some x -> R x y) -> neighbours R (l ++ [y]).
Proof.
  intros Hl Hlast i a b Ha Hb.
  destruct (decide (S i < length l)) as [Hlt|Hge].
  - rewrite lookup_app_l in Ha by lia. rewrite lookup_app_l in Hb by lia. eauto.
  - assert (i < length l) as Hi.
    { apply lookup_lt_Some in Hb. rewrite length_app in Hb. simpl in Hb. lia. }
    rewrite lookup_app_l in Ha by lia.
    rewrite lookup_app_r in Hb by lia.
    replace (S i - length l) with 0 in Hb by lia. injection Hb as <-.
    apply Hlast. rewrite last_lookup. by replace (pred (length l)) with i by lia.
Qed.

Lemma greedy_state_push chunks cur md :
  greedy_state (chunks, cur) ->
  neighbours over_budget_together (chunk_texts (push_if_truthy chunks cur md)).
Proof.
  intros [Hn Hlast]. rewrite chunk_texts_push. destruct cur as [|c cur]; simpl.
  - by rewrite app_nil_r.
  - apply neighbours_snoc; [done|]. intros t Ht. unfold over_budget_together.
    specialize (Hlast t Ht). rewrite length_app. simpl in *. lia.
Qed.

Lemma greedy_state_step md st word :
  greedy_state st -> greedy_state (chunk_step md st word).
Proof.
  destruct st as [chunks cur]. intros Hst. unfold chunk_step.
  case_bool_decide as Hfit.
  - destruct Hst as [Hn Hlast]. split; [done|]. simpl in *. intros t Ht.
    specialize (Hlast t Ht). rewrite !length_app. lia.
  - split; [by apply greedy_state_push|]. simpl.
    rewrite chunk_texts_push. rewrite length_app in Hfit. simpl in Hfit.
    destruct cur as [|c cur]; simpl in *.
    + rewrite app_nil_r. intros t _. lia.
    + intros t. rewrite last_snoc. intros [= <-]. simpl. lia.
Qed.

(** X2. The chunker is greedy: no two neighbouring chunks would have fitted
    in one chunk with a space between them. *)
Theorem splitIntoChunks_greedy input md :
  neighbours (fun t1 t2 => 500 < length (t1 ++ [space] ++ t2))
    (chunk_texts (splitIntoChunks input md)).
Proof.
  unfold splitIntoChunks.
  assert (greedy_state (fold_left (chunk_step md) (split_space input) ([], []))) as H.
  { apply (fold_left_invariant greedy_state (fun _ => True)).
    - intros st w Hst _. by apply greedy_state_step.
    - by apply Forall_forall.
    - split; [by intros i x y|]. by intros t. }
  destruct (fold_left _ _ _) as [chunks cur].
  exact (greedy_state_push chunks cur md H).
Qed.

(** With no empty word read, the chunks and the running chunk spell the
    words read, one space between two words. *)
Lemma chunk_fold_exact md l :
  Forall (fun w => w <> []) l ->
  l <> [] ->
  (fold_left (chunk_step md) l ([], [])).2 <> []
  /\ join [space] (chunk_texts (fold_left (chunk_step md) l ([], [])).1
                   ++ [(fold_left (chunk_step md) l ([], [])).2])
     = join [space] l.
Proof.
  induction l as [|w l IH] using rev_ind; [done|].
  intros [Hl Hw]%Forall_app _. rewrite Forall_singleton in Hw.
  rewrite fold_left_app. cbn [fold_left].
  destruct (decide (l = [])) as [->|Hne].
  - simpl. case_bool_decide; simpl; by destruct w.
  - destruct (IH Hl Hne) as [Hcur Hjoin]. clear IH.
    destruct (fold_left (chunk_step md) l ([], [])) as [chunks cur].
    cbn [fst snd] in *.
    rewrite (join_snoc [space] l w Hne), <- Hjoin.
    unfold chunk_step. case_bool_decide; cbn [fst snd].
    + split; [by destruct cur|]. destruct cur as [|c cur]; [done|].
      change (str_truthy (c :: cur)) with true. cbv iota.
      by rewrite join_snoc_app.
    + split; [done|]. rewrite chunk_texts_push.
      destruct cur as [|c cur]; [done|]. cbn [str_truthy].
      rewrite (join_snoc [space] (chunk_texts chunks ++ [c :: cur]) w);
        [done|by destruct (chunk_texts chunks)].
Qed.

(** X3. For an input with no empty word between spaces (it is not empty,
    starts and ends with no space, and holds no two spaces in a row), joining
    the chunk texts with single spaces gives the input back, code unit for code
    unit. *)
Theorem splitIntoChunks_exact_round_trip input md :
  [] ∉ split_space input ->
  join [space] (chunk_texts (splitIntoChunks input md)) = input.
Proof.
  intros Hwords. unfold splitIntoChunks.
  destruct (chunk_fold_exact md (split_space input)) as [Hcur Hjoin].
  - apply Forall_forall. by intros w Hw ->.
  - apply split_by_nonempty.
  - destruct (fold_left _ _ _) as [chunks cur]. simpl in *.
    rewrite chunk_texts_push. destruct cur as [|c cur]; [done|]. simpl.
    by rewrite Hjoin, join_split_space.
Qed.

(** X4. Every chunk carries a copy of the metadata object the chunker was
    given: for metadata that is an object, the metadata of every chunk is an
    object of the same properties, with the same values, in the same order. *)
Theorem splitIntoChunks_inherits_metadata input props :
  Forall (fun c : Chunk JValue => metadata c = JObj props)
    (splitIntoChunks input (JObj props)).
Proof. apply splitIntoChunks_metadata. Qed.

End ChunkerFurther.

(** ** The batch of the ingestion *)

Lemma lookup_corpus_ids d0 counts d n c :
  counts !! d = Some n -> c < n ->
  corpus_ids d0 counts !! (sum_list (take d counts) + c) = Some (chunk_id (d0 + d) c).
Proof.
  revert d0 d. induction counts as [|m counts IH]; intros d0 [|d] Hd Hc; simpl in *;
    try done.
  - injection Hd as ->. rewrite Nat.add_0_r, lookup_app_l by (by rewrite length_fmap, length_seq).
    rewrite list_lookup_fmap, lookup_seq_lt by done. done.
  - rewrite lookup_app_r by (rewrite length_fmap, length_seq; lia).
    rewrite length_fmap, length_seq.
    replace (m + sum_list (take d counts) + c - m) with (sum_list (take d counts) + c) by lia.
    rewrite (IH (S d0) d) by done. f_equal. f_equal. lia.
Qed.

Lemma lookup_concat {A} (ls : list (list A)) d l c x :
  ls !! d = Some l -> l !! c = Some x ->
  concat ls !! (sum_list (length <$> take d ls) + c) = Some x.
Proof.
  revert d. induction ls as [|l0 ls IH]; intros [|d] Hd Hc; simpl in *; try done.
  - injection Hd as ->. by rewrite lookup_app_l by (by eapply lookup_lt_Some).
  - rewrite lookup_app_r by lia. rewrite <- (IH d Hd Hc). f_equal. unfold fmap. lia.
Qed.

Lemma sum_list_length_concat {A} (ls : list (list A)) :
  sum_list (length <$> ls) = length (concat ls).
Proof. induction ls as [|l ls IH]; simpl; [done|]. by rewrite length_app, <- IH. Qed.

Lemma chunk_document_inv doc cs :
  chunk_document doc = Returned cs ->
  exists s,
    get_prop doc (js "content") = Returned (JStr s)
    /\ cs = splitIntoChunks s
              (JObj [(js "source", lookup_prop (js "source") (props_of doc));
                     (js "title", lookup_prop (js "title") (props_of doc))]).
Proof.
  unfold chunk_document.
  destruct doc as [| | | | | |props]; simpl; try done;
    try (by destruct (lookup_prop _ _)).
  destruct (lookup_prop (js "content") props) as [| | | |s| |] eqn:Hc; try done.
  intros [= <-]. by exists s.
Qed.

Lemma chunk_document_Returned_iff doc :
  (exists cs, chunk_document doc = Returned cs) <-> has_string_content doc.
Proof.
  split.
  - intros [cs (s & Hs & _)%chunk_document_inv]. by exists s.
  - intros [s Hs]. unfold chunk_document. rewrite Hs.
    destruct doc; simpl in *; try done; eauto.
Qed.

Lemma chunk_document_Thrown doc e : chunk_document doc = Thrown e -> e = TypeError.
Proof.
  unfold chunk_document.
  destruct doc as [| | | | | |props]; simpl; try (by intros [= <-]).
  destruct (lookup_prop (js "content") props); by intros [= <-].
Qed.

Lemma map_throwing_Thrown {A B} (f : A -> Outcome B) l e :
  map_throwing f l = Thrown e -> exists x, x ∈ l /\ f x = Thrown e.
Proof.
  induction l as [|x l IH]; simpl; [done|].
  destruct (f x) as [y|e'] eqn:Hx; simpl.
  - destruct (map_throwing f l) as [ys|e'']; simpl; [done|].
    intros [= ->]. destruct (IH eq_refl) as (x' & ? & ?). exists x'. split; [by right|done].
  - intros [= ->]. exists x. split; [left|done].
Qed.

(** The insert call of a run carries what [collect] accumulated. *)
Lemma trace_add_batch E s ids texts metas :
  CollectionAdd ids texts metas ∈ trace E processDocuments s ->
  exists docs css,
    Forall2 (fun doc cs => chunk_document doc = Returned cs) docs css
    /\ ids = acc_ids (batch_of css)
    /\ texts = acc_texts (batch_of css)
    /\ metas = acc_metadatas (batch_of css).
Proof.
  unfold trace. rewrite processDocuments_run. intros Hin.
  destruct (respond E probe s) as [[check|e] s1]; unfold probe in Hin;
    [|by apply list_elem_of_singleton in Hin].
  destruct (probe_hit check); [by apply list_elem_of_singleton in Hin|].
  destruct (respond E (ReadJSON docsPath) s1) as [[documents|e] s2].
  - destruct (collect documents) as [acc|e] eqn:Hacc; simpl in Hin.
    + apply elem_of_cons in Hin as [|Hin]; [done|].
      apply elem_of_cons in Hin as [|Hin]; [done|].
      apply list_elem_of_singleton in Hin. injection Hin as -> -> ->.
      apply collect_Returned in Hacc as (docs & css & -> & Hcss & ->).
      by exists docs, css.
    + apply elem_of_cons in Hin as [|Hin]; [done|].
      by apply list_elem_of_singleton in Hin.
  - simpl in Hin. apply elem_of_cons in Hin as [|Hin]; [done|].
    by apply list_elem_of_singleton in Hin.
Qed.

Lemma Forall_concat {A} (P : A -> Prop) (ls : list (list A)) :
  Forall (Forall P) ls -> Forall P (concat ls).
Proof. induction 1; simpl; [constructor|]. by apply Forall_app. Qed.

(** X5. Whatever the environment, the three arrays of an insert call have
    the same length, the identifiers are pairwise distinct, no text is empty,
    and every metadata is an object of exactly two properties, [source] and
    [title], in this order. *)
Theorem processDocuments_insert_well_formed E s ids texts metas :
  CollectionAdd ids texts metas ∈ trace E processDocuments s ->
  length ids = length texts
  /\ length texts = length metas
  /\ NoDup ids
  /\ Forall (fun t => t <> []) texts
  /\ Forall (fun m => exists src ttl, m = JObj [(js "source", src); (js "title", ttl)])
       metas.
Proof.
  intros (docs & css & Hcss & -> & -> & ->)%trace_add_batch. simpl.
  rewrite length_corpus_ids, !length_fmap, sum_list_length_concat.
  split_and!; [done|done|apply NoDup_corpus_ids|..].
  - apply Forall_fmap, Forall_concat.
    induction Hcss as [|doc cs docs css Hdoc _ IH]; constructor; [|done].
    apply chunk_document_inv in Hdoc as (t & _ & ->).
    pose proof (splitIntoChunks_truthy t
      (JObj [(js "source", lookup_prop (js "source") (props_of doc));
             (js "title", lookup_prop (js "title") (props_of doc))])) as H.
    unfold chunk_texts in H. by rewrite Forall_fmap in H.
  - apply Forall_fmap, Forall_concat.
    induction Hcss as [|doc cs docs css Hdoc _ IH]; constructor; [|done].
    apply chunk_document_inv in Hdoc as (t & _ & ->).
    eapply Forall_impl; [apply splitIntoChunks_metadata|].
    intros c Hc. simpl. rewrite Hc. eauto.
Qed.

(** X6. Chunk [c] of document [d] sits at one position of the batch in all
    of its arrays: there are its identifier ["d-c"], its text, and as its
    metadata the [source] and the [title] of document [d] ([undefined] for one
    the document lacks), the content left out. *)
Theorem collect_positions docs css d doc cs c chunk :
  Forall2 (fun doc cs => chunk_document doc = Returned cs) docs css ->
  docs !! d = Some doc ->
  css !! d = Some cs ->
  cs !! c = Some chunk ->
  exists acc,
    collect (JArr docs) = Returned acc
    /\ acc_ids acc !! position css d c = Some (js (pretty d) ++ js "-" ++ js (pretty c))
    /\ acc_texts acc !! position css d c = Some (text chunk)
    /\ allChunks acc !! position css d c = Some chunk
    /\ acc_metadatas acc !! position css d c
       = Some (JObj [(js "source", lookup_prop (js "source") (props_of doc));
                     (js "title", lookup_prop (js "title") (props_of doc))]).
Proof.
  intros Hcss Hdoc Hcs Hc. exists (batch_of css).
  assert (chunk_document doc = Returned cs) as Hchunk.
  { eapply Forall2_lookup_lr in Hcss; eauto. }
  apply map_throwing_Forall2 in Hcss. rewrite collect_array, Hcss.
  unfold position, batch_of. simpl.
  pose proof (lookup_concat css d cs c chunk Hcs Hc) as Hpos.
  split_and!; [done|..].
  - rewrite fmap_take.
    rewrite (lookup_corpus_ids 0 (length <$> css) d (length cs) c).
    + done.
    + by rewrite list_lookup_fmap, Hcs.
    + by eapply lookup_lt_Some.
  - by rewrite list_lookup_fmap, Hpos.
  - done.
  - rewrite list_lookup_fmap, Hpos. simpl. f_equal.
    apply chunk_document_inv in Hchunk as (t & _ & ->).
    pose proof (splitIntoChunks_metadata t
      (JObj [(js "source", lookup_prop (js "source") (props_of doc));
             (js "title", lookup_prop (js "title") (props_of doc))])) as H.
    rewrite Forall_forall in H. apply H. by eapply list_elem_of_lookup_2.
Qed.

Lemma collect_string_contents docs :
  Forall has_string_content docs -> exists acc, collect (JArr docs) = Returned acc.
Proof.
  intros Hdocs. rewrite collect_array.
  assert (exists css, map_throwing chunk_document docs = Returned css) as [css ->].
  { induction Hdocs as [|doc docs Hdoc _ [css IH]]; [by exists []|].
    apply chunk_document_Returned_iff in Hdoc as [cs Hcs].
    exists (cs :: css). simpl. by rewrite Hcs, IH. }
  eauto.
Qed.

(** X7. The chunking of a corpus goes through exactly when the corpus is an
    array whose every element gives a string as its [content]; in every other
    case what is thrown is a [TypeError]. *)
Theorem collect_succeeds_iff documents :
  ((exists acc, collect documents = Returned acc)
   <-> exists docs, documents = JArr docs /\ Forall has_string_content docs)
  /\ (forall e, collect documents = Thrown e -> e = TypeError).
Proof.
  split.
  - split.
    + intros [acc (docs & css & -> & Hcss & _)%collect_Returned].
      exists docs. split; [done|].
      induction Hcss as [|doc cs docs css Hdoc _ IH]; constructor; [|done].
      apply chunk_document_Returned_iff. eauto.
    + intros (docs & -> & Hdocs). by apply collect_string_contents.
  - intros e. destruct documents as [| | | | |docs|]; try (simpl; by intros [= <-]).
    rewrite collect_array.
    destruct (map_throwing chunk_document docs) as [css|e'] eqn:H; [done|].
    intros [= ->]. apply map_throwing_Thrown in H as (doc & _ & H).
    by apply chunk_document_Thrown in H.
Qed.

(** ** Rejected calls and blank corpora in the ingestion *)

(** X8. When the probe is rejected, the run ends with that error after the
    probe: the corpus file is not read and nothing is inserted. *)
Theorem processDocuments_probe_rejected E s e s1 :
  respond E probe s = (Thrown e, s1) ->
  run E processDocuments s = ([probe], Thrown e, s1).
Proof. intros Hprobe. by rewrite processDocuments_run, Hprobe. Qed.

(** X9. When the insert call is rejected, the run ends with that error: a
    failed insert is never reported as a finished ingestion. *)
Theorem processDocuments_insert_rejected E s check s1 documents s2 acc e s3 :
  respond E probe s = (Returned check, s1) ->
  probe_hit check = false ->
  respond E (ReadJSON docsPath) s1 = (Returned documents, s2) ->
  collect documents = Returned acc ->
  respond E (CollectionAdd (acc_ids acc) (acc_texts acc) (acc_metadatas acc)) s2
  = (Thrown e, s3) ->
  run E processDocuments s
  = ([probe; ReadJSON docsPath;
      CollectionAdd (acc_ids acc) (acc_texts acc) (acc_metadatas acc)],
     Thrown e, s3).
Proof.
  intros Hprobe Hhit Hread Hacc Hadd.
  rewrite processDocuments_run, Hprobe, Hhit, Hread, Hacc. cbv zeta. by rewrite Hadd.
Qed.

Lemma chunk_document_blank doc : blank_document doc -> chunk_document doc = Returned [].
Proof.
  intros [n Hn]. unfold chunk_document. rewrite Hn.
  destruct doc; simpl in *; try done; by rewrite splitIntoChunks_spaces.
Qed.

Lemma map_throwing_blank docs :
  Forall blank_document docs ->
  map_throwing chunk_document docs = Returned (replicate (length docs) []).
Proof.
  induction 1 as [|doc docs Hdoc _ IH]; [done|].
  simpl. by rewrite (chunk_document_blank doc Hdoc), IH.
Qed.

Lemma batch_of_empty n : batch_of (replicate n []) = mkAcc [] [] [] [].
Proof.
  unfold batch_of.
  assert (concat (replicate n ([] : list (Chunk JValue))) = []) as ->.
  { induction n as [|n IH]; [done|]. simpl. by rewrite IH. }
  f_equal. generalize 0 as d. induction n as [|n IH]; intros d; [done|].
  simpl. apply IH.
Qed.

(** X10. A corpus whose documents hold nothing but spaces (a corpus of no
    document included) is not an error: once the probe has missed and the
    file is read, the insert is called all the same, with three empty
    arrays. *)
Theorem processDocuments_blank_corpus E s check s1 docs s2 :
  respond E probe s = (Returned check, s1) ->
  probe_hit check = false ->
  respond E (ReadJSON docsPath) s1 = (Returned (JArr docs), s2) ->
  Forall blank_document docs ->
  trace E processDocuments s = [probe; ReadJSON docsPath; CollectionAdd [] [] []].
Proof.
  intros Hprobe Hhit Hread Hblank. unfold trace.
  rewrite processDocuments_run, Hprobe, Hhit, Hread, collect_array.
  by rewrite (map_throwing_blank docs Hblank), batch_of_empty.
Qed.

(** ** The calls and the failures of the query engine *)

(** X11. Whatever the environment answers, [KadenaRAG.query] reads and never
    writes: its first call is the retrieval of the question, alone in
    [queryTexts], for the asked number of results or 5; there is no other
    retrieval, at most one completion, and no other call. *)
Theorem KadenaRAG_query_calls E s question numResults :
  head (trace E (KadenaRAG.query question numResults) s)
  = Some (CollectionQuery [question] (default 5 numResults))
  /\ Forall (fun c => is_query c = true \/ is_chat c = true)
       (trace E (KadenaRAG.query question numResults) s)
  /\ length (filter (fun c => is_query c = true)
               (trace E (KadenaRAG.query question numResults) s)) = 1
  /\ length (filter (fun c => is_chat c = true)
               (trace E (KadenaRAG.query question numResults) s)) <= 1.
Proof.
  unfold trace. rewrite KadenaRAG_query_run. cbv zeta.
  assert (forall c, is_query c = true -> is_query c = true \/ is_chat c = true)
    as Hquery by auto.
  assert (forall c, is_chat c = true -> is_query c = true \/ is_chat c = true)
    as Hchat by auto.
  destruct (respond E _ s) as [[results|e] s1];
    [destruct (field0 documents results) as [retrieved|e];
       [destruct (respond E _ s1) as [[c|e] s2]|]|];
    cbn [fst snd]; (split; [done|]); (split; [|split; [done|simpl; lia]]).
  - constructor; [by apply Hquery|]. constructor; [by apply Hchat|]. constructor.
  - constructor; [by apply Hquery|]. constructor; [by apply Hchat|]. constructor.
  - constructor; [by apply Hquery|]. constructor.
  - constructor; [by apply Hquery|]. constructor.
Qed.

(** X12. When the retrieval is rejected, or answers with [null] or with no
    row of documents, the run ends with that error (a [TypeError] in the last
    two cases) after the retrieval: the completion is not called. *)
Theorem KadenaRAG_query_retrieval_failure E s question numResults e :
  (respond E (CollectionQuery [question] (default 5 numResults)) s).1 = Thrown e
  \/ (e = TypeError
      /\ ((respond E (CollectionQuery [question] (default 5 numResults)) s).1
          = Returned None
          \/ exists r,
               (respond E (CollectionQuery [question] (default 5 numResults)) s).1
               = Returned (Some r)
               /\ documents r = [])) ->
  run E (KadenaRAG.query question numResults) s
  = ([CollectionQuery [question] (default 5 numResults)], Thrown e,
     (respond E (CollectionQuery [question] (default 5 numResults)) s).2).
Proof.
  rewrite KadenaRAG_query_run. cbv zeta.
  destruct (respond E _ s) as [o s1]. simpl.
  intros [->|[-> [->|(r & -> & Hr)]]]; [done|done|].
  simpl. by rewrite Hr.
Qed.

Lemma map_throwing_source_of_nullish metas :
  Exists nullish metas -> map_throwing source_of metas = Thrown TypeError.
Proof.
  induction 1 as [m metas [->| ->]|m metas _ IH]; [done|done|].
  simpl. destruct (source_of m) as [src|e] eqn:Hm; simpl.
  - rewrite IH. reflexivity.
  - unfold source_of in Hm. destruct m; simpl in Hm; congruence.
Qed.

Lemma map_throwing_source_of_project metas :
  Forall (fun m => ~ nullish m) metas ->
  map_throwing source_of metas = Returned (project_source <$> metas).
Proof.
  induction 1 as [|m metas Hm _ IH]; [done|].
  rewrite fmap_cons. cbn [map_throwing]. rewrite IH.
  destruct m; try reflexivity; destruct Hm; unfold nullish; auto.
Qed.

(** X13. Once the retrieval has given a first row of documents and the
    completion has answered, the run has made exactly these two calls.  It
    then ends with a [TypeError] when the completion holds no choice, when
    the retrieval holds no row of metadata, or when a metadata of the row is
    [null] or [undefined]; in every other case it returns the content of the
    first choice and, for each metadata of the row, the [title] and [source]
    read off it, [undefined] where the metadata has none. *)
Theorem KadenaRAG_query_after_completion E s question numResults r s1 retrieved
    rest completion s2 :
  respond E (CollectionQuery [question] (default 5 numResults)) s
  = (Returned (Some r), s1) ->
  documents r = retrieved :: rest ->
  respond E (ChatCompletionsCreate (js "o3-mini")
               (chat_messages (join blank_line retrieved) question)) s1
  = (Returned completion, s2) ->
  trace E (KadenaRAG.query question numResults) s
  = [CollectionQuery [question] (default 5 numResults);
     ChatCompletionsCreate (js "o3-mini")
       (chat_messages (join blank_line retrieved) question)]
  /\ final E (KadenaRAG.query question numResults) s = s2
  /\ (choices completion = []
      \/ metadatas r = []
      \/ (exists metas ms, metadatas r = metas :: ms /\ Exists nullish metas) ->
      outcome E (KadenaRAG.query question numResults) s = Thrown TypeError)
  /\ (forall choice cs metas ms,
        choices completion = choice :: cs ->
        metadatas r = metas :: ms ->
        Forall (fun m => ~ nullish m) metas ->
        outcome E (KadenaRAG.query question numResults) s
        = Returned {| answer := content (message choice);
                      sources := project_source <$> metas |}).
Proof.
  intros Hq Hdocs Hc. unfold trace, final, outcome.
  rewrite KadenaRAG_query_run. cbv zeta. rewrite Hq. simpl. rewrite Hdocs. simpl.
  rewrite Hc. simpl. split_and!; [done|done|..].
  - intros Hfail. unfold shape.
    destruct (choices completion) as [|choice cs]; [reflexivity|].
    cbn [first mbind Outcome_bind]. unfold field0.
    destruct Hfail as [Hch|[Hm|(metas & ms & Hm & Hnull)]]; [done| |].
    + rewrite Hm. reflexivity.
    + rewrite Hm. cbn [first mbind Outcome_bind].
      rewrite (map_throwing_source_of_nullish metas Hnull). reflexivity.
  - intros choice cs metas ms Hch Hm Hmetas. unfold shape, field0.
    rewrite Hch, Hm. cbn [first mbind Outcome_bind].
    rewrite (map_throwing_source_of_project metas Hmetas). reflexivity.
Qed.

(** ** The handler: no exception escapes *)

Section RouterFurther.
Variable rag_query : JValue -> JValue -> Prog Answer.

(** X14. For a [rag] whose [query] resolves to an object with an [answer]
    and [sources], or rejects with an error object (a [TypeError], or an
    error that has a message), the handler never throws: whatever the body
    and the environment, it returns a response, of status 200, 400 or 500;
    the status is 200 exactly when the question is truthy and [rag.query]
    returned. *)
Theorem post_rag_never_throws E req_body s :
  exists response,
    outcome E (post_rag rag_query req_body) s = Returned response
    /\ (status response = 200 \/ status response = 400 \/ status response = 500)
    /\ (status response = 200
        <-> exists question numResults a,
              get_prop req_body (js "question") = Returned question
              /\ get_prop req_body (js "numResults") = Returned numResults
              /\ truthy question = true
              /\ outcome E (rag_query question (default_to (JNum 5) numResults)) s
                 = Returned a).
Proof.
  unfold outcome. rewrite post_rag_run.
  destruct (get_prop req_body (js "question")) as [question|e] eqn:Hq.
  - destruct (get_prop req_body (js "numResults")) as [numResults|e] eqn:Hn.
    + destruct (truthy question) eqn:Ht.
      * destruct (run E (rag_query question _) s) as [[tr [a|e]] s'] eqn:Hrun.
        -- eexists. split; [reflexivity|]. simpl. split; [by left|].
           split; [|done]. intros _. exists question, numResults, a.
           by rewrite Hrun.
        -- eexists. split; [reflexivity|]. simpl. split; [by right; right|].
           split; [done|]. intros (q & n & a & [= <-] & [= <-] & _ & Ha).
           rewrite Hrun in Ha. done.
      * eexists. split; [reflexivity|]. simpl. split; [by right; left|].
        split; [done|]. intros (q & n & a & [= <-] & _ & Ht' & _). congruence.
    + eexists. split; [reflexivity|]. simpl. split; [by right; right|].
      split; [done|]. by intros (q & n & a & _ & ? & _).
  - eexists. split; [reflexivity|]. simpl. split; [by right; right|].
    split; [done|]. by intros (q & n & a & ? & _).
Qed.

(** X15. A request whose body is [undefined] or [null] is answered with
    status 500 and a [TypeError] as details, not with status 400; no call is
    made. *)
Theorem post_rag_without_body E req_body s :
  nullish req_body ->
  run E (post_rag rag_query req_body) s
  = ([], Returned (mkResponse 500
                     (FailureBody (js "Failed to process question") TypeError)), s).
Proof. intros [->| ->]; by rewrite post_rag_run. Qed.

(** X16. The handler over [KadenaRAG.query]: for a body whose [question] is a
    non-empty string and that has no [numResults], with [rag.query] being
    [KadenaRAG.query] on that question and 5 results.  A rejected retrieval
    is answered with status 500 and that error, after the retrieval alone;
    a retrieval and a completion that both answer, the metadata of the first
    row being neither [null] nor [undefined], are answered with status 200,
    the question as it came, the content of the first choice and one source
    for each metadata of the row, after these two calls. *)
Theorem post_rag_over_KadenaRAG E req_body s q :
  get_prop req_body (js "question") = Returned (JStr q) ->
  q <> [] ->
  get_prop req_body (js "numResults") = Returned JUndefined ->
  rag_query (JStr q) (JNum 5) = KadenaRAG.query q (Some 5) ->
  (forall e s1,
     respond E (CollectionQuery [q] 5) s = (Thrown e, s1) ->
     run E (post_rag rag_query req_body) s
     = ([CollectionQuery [q] 5],
        Returned (mkResponse 500 (FailureBody (js "Failed to process question") e)),
        s1))
  /\ (forall r s1 retrieved rest completion s2 choice cs metas ms,
        respond E (CollectionQuery [q] 5) s = (Returned (Some r), s1) ->
        documents r = retrieved :: rest ->
        respond E (ChatCompletionsCreate (js "o3-mini")
                     (chat_messages (join blank_line retrieved) q)) s1
        = (Returned completion, s2) ->
        choices completion = choice :: cs ->
        metadatas r = metas :: ms ->
        Forall (fun m => ~ nullish m) metas ->
        run E (post_rag rag_query req_body) s
        = ([CollectionQuery [q] 5;
            ChatCompletionsCreate (js "o3-mini")
              (chat_messages (join blank_line retrieved) q)],
           Returned (mkResponse 200
                       (AnswerBody (JStr q) (content (message choice))
                          (project_source <$> metas))),
           s2)).
Proof.
  intros Hq Hne Hn Hrag.
  assert (truthy (JStr q) = true) as Ht by (by destruct q).
  split.
  - intros e s1 Hret.
    rewrite post_rag_run, Hq, Hn, Ht. cbn [default_to]. rewrite Hrag.
    rewrite KadenaRAG_query_run. cbv zeta. change (default 5 (Some 5)) with 5.
    by rewrite Hret.
  - intros r s1 retrieved rest completion s2 choice cs metas ms
      Hret Hdocs Hc Hch Hm Hmetas.
    rewrite post_rag_run, Hq, Hn, Ht. cbn [default_to]. rewrite Hrag.
    rewrite KadenaRAG_query_run. cbv zeta. change (default 5 (Some 5)) with 5.
    rewrite Hret.
    unfold field0 at 1. rewrite Hdocs. cbn [first]. rewrite Hc.
    unfold shape, field0. rewrite Hch, Hm. cbn [first mbind Outcome_bind].
    rewrite (map_throwing_source_of_project metas Hmetas). reflexivity.
Qed.

End RouterFurther.

(** ** Programs of the start-up and of the scraper, and their runs *)

Lemma sys_run_bind {A B} E (p : SysProg A) (f : A -> SysProg B) s :
  sys_run E (p ≫= f) s
  = match sys_run E p s with
    | (tr, Returned a, s') =>
        let '(tr', o, s'') := sys_run E (f a) s' in (tr ++ tr', o, s'')
    | (tr, Thrown e, s') => (tr, Thrown e, s')
    end.
Proof.
  unfold mbind, SysProg_bind. revert s.
  induction p as [a|e|c k IHk h IHh]; intros s; simpl.
  - by destruct (sys_run E (f a) s) as [[??]?].
  - done.
  - destruct (sys_respond E c s) as [[x|e] s'].
    + rewrite IHk. destruct (sys_run E (k x) s') as [[tr [a|e]] s'']; [|done].
      by destruct (sys_run E (f a) s'') as [[??]?].
    + rewrite IHh. destruct (sys_run E (h e) s') as [[tr [a|e']] s'']; [|done].
      by destruct (sys_run E (f a) s'') as [[??]?].
Qed.

Lemma sys_run_try_catch {R} E (p : SysProg R) (handler : Error -> SysProg R) s :
  sys_run E (sys_try_catch p handler) s
  = match sys_run E p s with
    | (tr, Returned r, s') => (tr, Returned r, s')
    | (tr, Thrown e, s') =>
        let '(tr', o, s'') := sys_run E (handler e) s' in (tr ++ tr', o, s'')
    end.
Proof.
  revert s. induction p as [r|e|c k IHk h IHh]; intros s; simpl.
  - done.
  - by destruct (sys_run E (handler e) s) as [[??]?].
  - destruct (sys_respond E c s) as [[x|e] s'].
    + rewrite IHk. destruct (sys_run E (k x) s') as [[tr [r|e]] s'']; [done|].
      by destruct (sys_run E (handler e) s'') as [[??]?].
    + rewrite IHh. destruct (sys_run E (h e) s') as [[tr [r|e']] s'']; [done|].
      by destruct (sys_run E (handler e') s'') as [[??]?].
Qed.

Lemma sys_run_rethrow {R} E (p : SysProg R) s :
  sys_run E (sys_try_catch p (fun error => SThrow error)) s = sys_run E p s.
Proof.
  rewrite sys_run_try_catch. destruct (sys_run E p s) as [[tr [r|e]] s']; [done|].
  simpl. by rewrite app_nil_r.
Qed.

Lemma sys_run_call E c s :
  sys_run E (sys_call c) s = ([c], (sys_respond E c s).1, (sys_respond E c s).2).
Proof. simpl. by destruct (sys_respond E c s) as [[x|e] s']. Qed.

Lemma sys_run_lift {A} E (o : Outcome A) s : sys_run E (sys_lift o) s = ([], o, s).
Proof. by destruct o. Qed.

Lemma sys_run_of_prog {R} E (p : Prog R) s :
  sys_run E (of_prog p) s
  = let '(tr, o, s') := run (service_env E) p s in (Service <$> tr, o, s').
Proof.
  revert s. induction p as [r|e|c k IHk h IHh]; intros s; simpl; [done|done|].
  destruct (sys_respond E (Service c) s) as [[x|e] s'].
  - rewrite IHk. by destruct (run (service_env E) (k x) s') as [[??]?].
  - rewrite IHh. by destruct (run (service_env E) (h e) s') as [[??]?].
Qed.

Lemma Vectorizer_initialize_run E s :
  sys_run E Vectorizer_initialize s
  = match sys_respond E (GetCollection COLLECTION_NAME) s with
    | (Returned _, s1) => ([GetCollection COLLECTION_NAME], Returned tt, s1)
    | (Thrown _, s1) =>
        ([GetCollection COLLECTION_NAME; CreateCollection COLLECTION_NAME],
         (sys_respond E (CreateCollection COLLECTION_NAME) s1).1,
         (sys_respond E (CreateCollection COLLECTION_NAME) s1).2)
    end.
Proof.
  unfold Vectorizer_initialize. rewrite sys_run_rethrow, sys_run_try_catch.
  rewrite (sys_run_call E (GetCollection COLLECTION_NAME)).
  destruct (sys_respond E (GetCollection COLLECTION_NAME) s) as [[[]|e] s1]; [done|].
  cbn [fst snd]. by rewrite (sys_run_call E (CreateCollection COLLECTION_NAME)).
Qed.

(** X17. [Vectorizer.initialize] creates the collection exactly when getting
    it is rejected, whatever the reason of the rejection: a collection that
    is got is not created; after a rejected get the outcome is that of the
    creation, so that when both are rejected the error thrown is the one of
    the creation and the one of the get is lost. *)
Theorem Vectorizer_initialize_fallback E s :
  (forall s1,
     sys_respond E (GetCollection COLLECTION_NAME) s = (Returned tt, s1) ->
     sys_run E Vectorizer_initialize s
     = ([GetCollection COLLECTION_NAME], Returned tt, s1))
  /\ (forall e s1 o s2,
        sys_respond E (GetCollection COLLECTION_NAME) s = (Thrown e, s1) ->
        sys_respond E (CreateCollection COLLECTION_NAME) s1 = (o, s2) ->
        sys_run E Vectorizer_initialize s
        = ([GetCollection COLLECTION_NAME; CreateCollection COLLECTION_NAME], o, s2)).
Proof.
  split.
  - intros s1 Hget. by rewrite Vectorizer_initialize_run, Hget.
  - intros e s1 o s2 Hget Hcreate. by rewrite Vectorizer_initialize_run, Hget, Hcreate.
Qed.

(** X18. [KadenaRAG.initialize] is the opening of the collection followed by
    the ingestion: when the opening throws, that error is thrown and no call
    of the ingestion is made; when it returns, the calls of the ingestion
    follow those of the opening, from the state the opening left, and the
    outcome is that of the ingestion. *)
Theorem KadenaRAG_initialize_run E s :
  sys_run E KadenaRAG_initialize s
  = match sys_run E Vectorizer_initialize s with
    | (opening, Thrown e, s1) => (opening, Thrown e, s1)
    | (opening, Returned _, s1) =>
        let '(ingestion, o, s2) := run (service_env E) processDocuments s1 in
        (opening ++ (Service <$> ingestion), o, s2)
    end.
Proof.
  unfold KadenaRAG_initialize. rewrite sys_run_rethrow, sys_run_bind.
  destruct (sys_run E Vectorizer_initialize s) as [[opening [[]|e]] s1]; [|done].
  rewrite sys_run_of_prog.
  by destruct (run (service_env E) processDocuments s1) as [[??]?].
Qed.

(** ** The text of a scraped document *)

Lemma join_cons_tail a l : join [space] (a :: l) = a ++ tail_join l.
Proof. destruct l; simpl; [by rewrite app_nil_r|done]. Qed.

Lemma trim_end_cons_word c x :
  is_whitespace c = false -> trim_end (c :: x) = c :: trim_end x.
Proof. intros Hc. simpl. rewrite Hc. by destruct (trim_end x). Qed.

Lemma trim_end_cons_whitespace c x :
  is_whitespace c = true ->
  trim_end (c :: x) = match trim_end x with [] => [] | r => c :: r end.
Proof. intros Hc. simpl. by rewrite Hc. Qed.

Lemma trim_start_collapse_true s : trim_start (collapse true s) = collapse true s.
Proof.
  induction s as [|c s IH]; [done|]. simpl.
  destruct (is_whitespace c) eqn:Hc; [done|]. simpl. by rewrite Hc.
Qed.

Lemma trim_start_collapse_false s : trim_start (collapse false s) = collapse true s.
Proof.
  destruct s as [|c s]; [done|]. simpl.
  destruct (is_whitespace c) eqn:Hc; simpl.
  - apply trim_start_collapse_true.
  - by rewrite Hc.
Qed.

Lemma words_Forall_nonempty p s : Forall (fun w => w <> []) (words p s).
Proof. unfold words. apply Forall_forall. by intros w [? _]%list_elem_of_filter. Qed.

Lemma join_nonempty l : Forall (fun w => w <> []) l -> join [space] l = [] -> l = [].
Proof.
  destruct 1 as [|a l Ha _]; [done|]. rewrite join_cons_tail.
  by destruct a.
Qed.

Lemma words_cons_whitespace p c s : p c = true -> words p (c :: s) = words p s.
Proof. intros Hc. unfold words. simpl. rewrite Hc. by rewrite filter_cons_False by naive_solver. Qed.

Lemma words_cons_word p c s :
  p c = false ->
  join [space] (words p (c :: s))
  = c :: match split_by p s with
         | w :: rest => w ++ tail_join (filter (fun w => w <> []) rest)
         | [] => []
         end.
Proof.
  intros Hc. unfold words. simpl. rewrite Hc.
  pose proof (split_by_nonempty p s) as Hne.
  destruct (split_by p s) as [|w rest]; [done|].
  rewrite filter_cons_True by done. by rewrite join_cons_tail.
Qed.

Lemma normalize_closed_form_aux s :
  trim (collapse false s) = join [space] (words is_whitespace s)
  /\ trim_end (collapse false s) = join_from_word s.
Proof.
  unfold trim, join_from_word. induction s as [|c s [IHtrim IHend]]; [done|].
  rewrite trim_start_collapse_false in *.
  destruct (is_whitespace c) eqn:Hc.
  - rewrite (words_cons_whitespace _ c s Hc).
    split.
    + simpl. by rewrite Hc.
    + cbn [collapse split_by]. rewrite Hc.
      rewrite (trim_end_cons_whitespace space) by done.
      rewrite IHtrim. fold (words is_whitespace s).
      pose proof (words_Forall_nonempty is_whitespace s) as Hwords.
      destruct (words is_whitespace s) as [|w ws] eqn:Hw; [done|].
      destruct (join [space] (w :: ws)) eqn:Hj;
        [|unfold tail_join; by rewrite Hj].
      by apply join_nonempty in Hj.
  - rewrite (words_cons_word _ c s Hc).
    cbn [collapse split_by]. rewrite Hc.
    rewrite (trim_end_cons_word c) by done. rewrite IHend.
    split; [done|].
    pose proof (split_by_nonempty is_whitespace s) as Hne.
    by destruct (split_by is_whitespace s).
Qed.

Lemma normalize_words text :
  normalize text = join [space] (words is_whitespace text).
Proof. apply normalize_closed_form_aux. Qed.

(** X19. The text of a scraped document, [text.replace(/\s+/g, ' ').trim()],
    is the white-space-delimited words of [text] joined by single spaces. *)
Theorem normalize_closed_form text :
  normalize text = join [space] (words is_whitespace text).
Proof. apply normalize_words. Qed.

Lemma split_by_pieces p s : Forall (Forall (fun c => p c = false)) (split_by p s).
Proof.
  induction s as [|c s IH]; simpl; [by repeat constructor|].
  pose proof (split_by_nonempty p s) as Hne.
  destruct (p c) eqn:Hc; [by constructor|].
  destruct (split_by p s) as [|w ws]; [done|].
  apply Forall_cons in IH as [Hw Hws]. by repeat constructor.
Qed.

Lemma split_by_word p w : Forall (fun c => p c = false) w -> split_by p w = [w].
Proof.
  induction 1 as [|c w Hc _ IH]; [done|]. simpl. by rewrite Hc, IH.
Qed.

Lemma split_by_join p c l :
  p c = true -> l <> [] -> Forall (Forall (fun x => p x = false)) l ->
  split_by p (join [c] l) = l.
Proof.
  intros Hc Hne Hl. induction Hl as [|w l Hw Hl IH]; [done|].
  destruct l as [|v l]; [by apply split_by_word|].
  rewrite join_cons_cons. change ([c] ++ join [c] (v :: l)) with (c :: join [c] (v :: l)).
  rewrite (split_by_app_sep p w c _ Hc), (split_by_word p w Hw), IH by done. done.
Qed.

Lemma words_pieces text :
  Forall (Forall (fun c => is_whitespace c = false)) (words is_whitespace text).
Proof.
  unfold words. apply Forall_forall. intros w [_ Hw]%list_elem_of_filter.
  pose proof (split_by_pieces is_whitespace text) as H.
  rewrite Forall_forall in H. by apply H.
Qed.

Lemma is_space_whitespace c : is_whitespace c = false -> is_space c = false.
Proof.
  intros Hc. destruct (is_space c) eqn:Hs; [|done].
  apply is_space_spec in Hs as ->. done.
Qed.

(** The words of a scraped text are its pieces between spaces. *)
Lemma split_space_normalize text :
  words is_whitespace text <> [] ->
  split_space (normalize text) = words is_whitespace text.
Proof.
  intros Hne. rewrite normalize_words. unfold split_space.
  apply split_by_join; [done|done|].
  eapply Forall_impl; [apply words_pieces|]. intros w Hw.
  eapply Forall_impl; [exact Hw|]. apply is_space_whitespace.
Qed.

Lemma words_join_words text :
  words is_whitespace (join [space] (words is_whitespace text))
  = words is_whitespace text.
Proof.
  rewrite (words_join is_whitespace [space] space) by done.
  pose proof (words_pieces text) as Hp.
  pose proof (words_Forall_nonempty is_whitespace text) as Hn.
  induction (words is_whitespace text) as [|w ws IH]; [done|].
  apply Forall_cons in Hp as [Hw Hp]. apply Forall_cons in Hn as [Hw' Hn].
  rewrite fmap_cons. cbn [concat]. rewrite IH by done.
  unfold words at 1. rewrite (split_by_word _ w Hw).
  by rewrite filter_cons_True by done.
Qed.

(** X20. Scraping a text that was scraped changes nothing. *)
Theorem normalize_idempotent text : normalize (normalize text) = normalize text.
Proof.
  rewrite (normalize_words (normalize text)), (normalize_words text).
  by rewrite words_join_words.
Qed.

(** X21. For the text of a scraped document the chunker loses nothing:
    joining its chunk texts with single spaces gives the text back, code unit
    for code unit. *)
Theorem splitIntoChunks_normalize_round_trip {M} text (md : M) :
  join [space] (chunk_texts (splitIntoChunks (normalize text) md)) = normalize text.
Proof.
  destruct (decide (words is_whitespace text = [])) as [Hnil|Hne].
  - rewrite (normalize_words text), Hnil. reflexivity.
  - unfold splitIntoChunks. rewrite (split_space_normalize text Hne).
    destruct (chunk_fold_exact md (words is_whitespace text)) as [Hcur Hjoin].
    + apply words_Forall_nonempty.
    + done.
    + destruct (fold_left _ _ _) as [chunks cur]. cbn [fst snd] in *.
      rewrite chunk_texts_push. destruct cur as [|c cur]; [done|].
      cbn [str_truthy]. rewrite Hjoin.
      by rewrite (normalize_words text).
Qed.

(** ** The run of the scraper *)

Section ScraperProperties.
Variable html_text : jsstring -> Outcome jsstring.
Variable basename_md : jsstring -> jsstring.

Lemma readDocContent_run E path s :
  sys_run E (readDocContent path) s
  = ([ReadFile path],
     Returned (match (sys_respond E (ReadFile path) s).1 with
               | Returned text => Some text
               | Thrown _ => None
               end),
     (sys_respond E (ReadFile path) s).2).
Proof.
  unfold readDocContent. simpl.
  by destruct (sys_respond E (ReadFile path) s) as [[text|e] s'].
Qed.

Lemma scrape_file_run E documents file s :
  sys_run E (scrape_file html_text basename_md documents file) s
  = ([read_of file],
     Returned (scraped html_text basename_md documents file
                 (sys_respond E (read_of file) s).1),
     (sys_respond E (read_of file) s).2).
Proof.
  unfold scrape_file. rewrite sys_run_try_catch, sys_run_bind, readDocContent_run.
  fold (read_of file). unfold scraped.
  destruct (sys_respond E (read_of file) s) as [[text|e] s']; cbn [fst snd]; [|done].
  destruct (str_truthy text); [|done].
  rewrite sys_run_bind, sys_run_lift.
  by destruct (processMarkdown html_text basename_md text file).
Qed.

Lemma scraped_inv documents file read :
  scraped html_text basename_md documents file read = documents
  \/ exists rendered,
       scraped html_text basename_md documents file read
       = documents ++ [JObj [(js "content", JStr (normalize rendered));
                             (js "source", JStr file);
                             (js "title", JStr (basename_md file))]].
Proof.
  unfold scraped. destruct read as [text|e]; [|by left].
  destruct (str_truthy text); [|by left]. unfold processMarkdown.
  destruct (html_text text) as [rendered|e]; simpl; [|by left].
  right. by exists rendered.
Qed.

Lemma scrape_files_run E files documents s :
  exists new s',
    sys_run E (scrape_files html_text basename_md files documents) s
    = (read_of <$> files, Returned (documents ++ new), s')
    /\ Forall (scraped_document basename_md) new
    /\ (source_file <$> new) `sublist_of` (JStr <$> files).
Proof.
  revert documents s. induction files as [|file files IH]; intros documents s.
  - exists [], s. simpl. rewrite app_nil_r. split_and!; [done|constructor|constructor].
  - cbn [scrape_files]. rewrite sys_run_bind, scrape_file_run.
    set (read := (sys_respond E (read_of file) s).1).
    set (s1 := (sys_respond E (read_of file) s).2).
    destruct (IH (scraped html_text basename_md documents file read) s1)
      as (new & s' & Hrun & Hnew & Hsub).
    rewrite Hrun. cbn [app fmap list_fmap].
    destruct (scraped_inv documents file read) as [->|[rendered ->]].
    + exists new, s'. split_and!; [done|done|]. by apply sublist_cons.
    + eexists (_ :: new), s'. rewrite <- (assoc_L (++)). split_and!; [done| |].
      * constructor; [|done]. by exists rendered, file.
      * rewrite fmap_cons. by apply sublist_skip.
Qed.

Lemma scrapeKadenaDocs_run E s :
  sys_run E (scrapeKadenaDocs html_text basename_md) s
  = match sys_respond E (EnsureDir OUTPUT_DIR) s with
    | (Thrown e, s1) => ([EnsureDir OUTPUT_DIR], Thrown e, s1)
    | (Returned _, s1) =>
        match sys_respond E (Glob (js "**/*.md") DOCS_DIR) s1 with
        | (Thrown e, s2) =>
            ([EnsureDir OUTPUT_DIR; Glob (js "**/*.md") DOCS_DIR], Thrown e, s2)
        | (Returned files, s2) =>
            match sys_run E (scrape_files html_text basename_md files []) s2 with
            | (reads, Thrown e, s3) =>
                (EnsureDir OUTPUT_DIR :: Glob (js "**/*.md") DOCS_DIR :: reads,
                 Thrown e, s3)
            | (reads, Returned documents, s3) =>
                if bool_decide (length documents = 0)
                then (EnsureDir OUTPUT_DIR :: Glob (js "**/*.md") DOCS_DIR :: reads,
                      Thrown no_documents, s3)
                else (EnsureDir OUTPUT_DIR :: Glob (js "**/*.md") DOCS_DIR
                      :: reads ++ [WriteJSON docsPath (JArr documents)],
                      match (sys_respond E (WriteJSON docsPath (JArr documents)) s3).1
                      with
                      | Returned _ => Returned documents
                      | Thrown e => Thrown e
                      end,
                      (sys_respond E (WriteJSON docsPath (JArr documents)) s3).2)
            end
        end
    end.
Proof.
  unfold scrapeKadenaDocs. rewrite sys_run_rethrow, sys_run_bind.
  rewrite (sys_run_call E (EnsureDir OUTPUT_DIR)).
  destruct (sys_respond E (EnsureDir OUTPUT_DIR) s) as [[[]|e] s1]; cbn [fst snd];
    [|done].
  rewrite sys_run_bind, (sys_run_call E (Glob (js "**/*.md") DOCS_DIR)).
  destruct (sys_respond E (Glob (js "**/*.md") DOCS_DIR) s1) as [[files|e] s2];
    cbn [fst snd]; [|done].
  rewrite sys_run_bind.
  destruct (sys_run E (scrape_files html_text basename_md files []) s2)
    as [[reads [documents|e]] s3]; [|done].
  case_bool_decide; [simpl; by rewrite app_nil_r|].
  change (path_join OUTPUT_DIR (js "processed_docs.json")) with docsPath.
  rewrite sys_run_bind, (sys_run_call E (WriteJSON docsPath (JArr documents))).
  destruct (sys_respond E (WriteJSON docsPath (JArr documents)) s3) as [[[]|e] s4];
    cbn [fst snd]; done.
Qed.

Lemma scraped_document_string_content doc :
  scraped_document basename_md doc -> has_string_content doc.
Proof. intros (text & file & ->). by exists (normalize text). Qed.

Lemma reads_no_write (files : list jsstring) : filter (fun c => is_write c = true) (read_of <$> files) = [].
Proof. induction files as [|file files IH]; [done|]. rewrite fmap_cons. by rewrite filter_cons_False. Qed.

Lemma reads_not_write (files : list jsstring) path value : WriteJSON path value ∉ read_of <$> files.
Proof. by intros (file & ? & _)%list_elem_of_fmap. Qed.

(** X22. When the scraper returns, what it returns is the array it wrote, as
    its last call, to the file the ingestion reads; the array is not empty,
    its documents are scraped documents, in the order of the files found and
    at most one for a file, and the ingestion can chunk everyone of them. *)
Theorem scrapeKadenaDocs_returned E s calls documents s' :
  sys_run E (scrapeKadenaDocs html_text basename_md) s
  = (calls, Returned documents, s') ->
  documents <> []
  /\ Forall (scraped_document basename_md) documents
  /\ (exists acc, collect (JArr documents) = Returned acc)
  /\ exists files,
       calls = EnsureDir OUTPUT_DIR :: Glob (js "**/*.md") DOCS_DIR
               :: (read_of <$> files) ++ [WriteJSON docsPath (JArr documents)]
       /\ (source_file <$> documents) `sublist_of` (JStr <$> files).
Proof.
  rewrite scrapeKadenaDocs_run.
  destruct (sys_respond E (EnsureDir OUTPUT_DIR) s) as [[[]|e] s1]; [|done].
  destruct (sys_respond E (Glob _ _) s1) as [[files|e] s2]; [|done].
  destruct (scrape_files_run E files [] s2) as (new & s3 & -> & Hnew & Hsub).
  cbn [app]. case_bool_decide as Hlen; [done|].
  destruct (sys_respond E (WriteJSON _ _) s3) as [[[]|e] s4]; [|done].
  cbn [fst snd]. intros [= <- <- <-]. split_and!.
  - by destruct new.
  - done.
  - apply collect_string_contents.
    eapply Forall_impl; [exact Hnew|]. apply scraped_document_string_content.
  - by exists files.
Qed.

Lemma scrape_files_nothing E files documents s :
  (forall file st,
     file ∈ files ->
     match (sys_respond E (read_of file) st).1 with
     | Returned text => text = []
     | Thrown _ => True
     end) ->
  exists s',
    sys_run E (scrape_files html_text basename_md files documents) s
    = (read_of <$> files, Returned documents, s').
Proof.
  revert s. induction files as [|file files IH]; intros s Hfiles; [by eexists|].
  cbn [scrape_files]. rewrite sys_run_bind, scrape_file_run.
  assert (scraped html_text basename_md documents file
            (sys_respond E (read_of file) s).1 = documents) as ->.
  { specialize (Hfiles file s (list_elem_of_here _ _)). unfold scraped.
    destruct (sys_respond E (read_of file) s).1 as [text|e]; [|done]. by subst. }
  destruct (IH (sys_respond E (read_of file) s).2) as [s' ->].
  { intros f st Hf. apply Hfiles. by right. }
  by eexists.
Qed.

(** X23. When the directory is there and the search has answered, but every
    file found is unreadable or empty (or no file was found), the scraper
    throws [No documents were successfully processed] after the reads: the
    failure of a file is not an error by itself, and nothing is written. *)
Theorem scrapeKadenaDocs_nothing_scraped E s s1 files s2 :
  sys_respond E (EnsureDir OUTPUT_DIR) s = (Returned tt, s1) ->
  sys_respond E (Glob (js "**/*.md") DOCS_DIR) s1 = (Returned files, s2) ->
  (forall file st,
     file ∈ files ->
     match (sys_respond E (read_of file) st).1 with
     | Returned text => text = []
     | Thrown _ => True
     end) ->
  sys_trace E (scrapeKadenaDocs html_text basename_md) s
  = EnsureDir OUTPUT_DIR :: Glob (js "**/*.md") DOCS_DIR :: (read_of <$> files)
  /\ sys_outcome E (scrapeKadenaDocs html_text basename_md) s = Thrown no_documents.
Proof.
  intros Hdir Hglob Hfiles. unfold sys_trace, sys_outcome.
  rewrite scrapeKadenaDocs_run, Hdir, Hglob.
  destruct (scrape_files_nothing E files [] s2 Hfiles) as [s3 ->]. done.
Qed.

(** X24. Whatever happens, the scraper writes at most once, to the file the
    ingestion reads, and what it writes is a non-empty array of scraped
    documents: it never leaves an empty corpus behind. *)
Theorem scrapeKadenaDocs_writes E s :
  length (filter (fun c => is_write c = true)
            (sys_trace E (scrapeKadenaDocs html_text basename_md) s)) <= 1
  /\ forall path value,
       WriteJSON path value ∈ sys_trace E (scrapeKadenaDocs html_text basename_md) s ->
       path = docsPath
       /\ exists documents,
            value = JArr documents /\ documents <> []
            /\ Forall (scraped_document basename_md) documents.
Proof.
  unfold sys_trace. rewrite scrapeKadenaDocs_run.
  destruct (sys_respond E (EnsureDir OUTPUT_DIR) s) as [[[]|e] s1].
  2:{ split; [simpl; lia|]. intros p v Hin. by apply list_elem_of_singleton in Hin. }
  destruct (sys_respond E (Glob _ _) s1) as [[files|e] s2].
  2:{ split; [simpl; lia|]. intros p v Hin.
      apply elem_of_cons in Hin as [|Hin]; [done|].
      by apply list_elem_of_singleton in Hin. }
  destruct (scrape_files_run E files [] s2) as (new & s3 & -> & Hnew & _).
  cbn [app]. case_bool_decide as Hlen; cbn [fst snd].
  - split.
    + rewrite !filter_cons_False by done. rewrite reads_no_write. simpl. lia.
    + intros p v Hin.
      apply elem_of_cons in Hin as [|Hin]; [done|].
      apply elem_of_cons in Hin as [|Hin]; [done|].
      by apply reads_not_write in Hin.
  - split.
    + rewrite !filter_cons_False by done.
      rewrite filter_app, reads_no_write. simpl. lia.
    + intros p v Hin.
      apply elem_of_cons in Hin as [|Hin]; [done|].
      apply elem_of_cons in Hin as [|Hin]; [done|].
      apply elem_of_app in Hin as [Hin|Hin]; [by apply reads_not_write in Hin|].
      apply list_elem_of_singleton in Hin. injection Hin as -> ->.
      split; [done|]. exists new. split_and!; [done| |done]. by destruct new.
Qed.

End ScraperProperties.

(** ** The further properties on examples *)

Lemma splitIntoChunks_short_input_witness :
  length (js "  ab cd") <= CHUNK_SIZE
  /\ chunk_texts (splitIntoChunks (js "  ab cd") tt)
     = match strip_spaces (js "  ab cd") with
       | [] => []
       | t => [t]
       end.
Proof.
  split; [unfold CHUNK_SIZE; simpl; lia|].
  apply (splitIntoChunks_short_input (js "  ab cd") tt). unfold CHUNK_SIZE. simpl. lia.
Defined.

Lemma splitIntoChunks_exact_round_trip_witness :
  ([] ∉ split_space (js "ab cd"))
  /\ join [space] (chunk_texts (splitIntoChunks (js "ab cd") tt)) = js "ab cd".
Proof.
  assert ([] ∉ split_space (js "ab cd")) as H.
  { intros H%list_elem_of_In. simpl in H. by destruct H as [|[|[]]]. }
  split; [exact H|]. exact (splitIntoChunks_exact_round_trip (js "ab cd") tt H).
Defined.

Lemma processDocuments_insert_well_formed_witness :
  CollectionAdd [js "0-0"] [js "Kadena uses Blake2s mining."] [mining_metadata]
  ∈ trace bare_env processDocuments empty_world
  /\ length [js "0-0"] = length [js "Kadena uses Blake2s mining."]
  /\ length [js "Kadena uses Blake2s mining."] = length [mining_metadata]
  /\ NoDup [js "0-0"]
  /\ Forall (fun t => t <> []) [js "Kadena uses Blake2s mining."]
  /\ Forall (fun m => exists src ttl, m = JObj [(js "source", src); (js "title", ttl)])
       [mining_metadata].
Proof.
  assert (CollectionAdd [js "0-0"] [js "Kadena uses Blake2s mining."] [mining_metadata]
          ∈ trace bare_env processDocuments empty_world) as H.
  { apply list_elem_of_further, list_elem_of_further, list_elem_of_here. }
  split; [exact H|].
  exact (processDocuments_insert_well_formed bare_env empty_world _ _ _ H).
Defined.

Lemma collect_positions_witness :
  Forall2 (fun doc cs => chunk_document doc = Returned cs) [mining_document]
    [[mining_chunk]]
  /\ [mining_document] !! 0 = Some mining_document
  /\ [[mining_chunk]] !! 0 = Some [mining_chunk]
  /\ [mining_chunk] !! 0 = Some mining_chunk
  /\ exists acc,
       collect (JArr [mining_document]) = Returned acc
       /\ acc_ids acc !! position [[mining_chunk]] 0 0
          = Some (js (pretty 0) ++ js "-" ++ js (pretty 0))
       /\ acc_texts acc !! position [[mining_chunk]] 0 0 = Some (text mining_chunk)
       /\ allChunks acc !! position [[mining_chunk]] 0 0 = Some mining_chunk
       /\ acc_metadatas acc !! position [[mining_chunk]] 0 0
          = Some (JObj [(js "source", lookup_prop (js "source") (props_of mining_document));
                        (js "title", lookup_prop (js "title") (props_of mining_document))]).
Proof.
  assert (Forall2 (fun doc cs => chunk_document doc = Returned cs) [mining_document]
            [[mining_chunk]]) as H by repeat constructor.
  split_and!; [exact H|reflexivity..|].
  exact (collect_positions [mining_document] [[mining_chunk]] 0 mining_document
           [mining_chunk] 0 mining_chunk H eq_refl eq_refl eq_refl).
Defined.

Lemma processDocuments_probe_rejected_witness :
  respond (rejecting_env is_query) probe empty_world = (Thrown unavailable, empty_world)
  /\ run (rejecting_env is_query) processDocuments empty_world
     = ([probe], Thrown unavailable, empty_world).
Proof.
  split; [reflexivity|].
  apply (processDocuments_probe_rejected (rejecting_env is_query) empty_world).
  reflexivity.
Defined.

Lemma processDocuments_insert_rejected_witness :
  respond (rejecting_env is_add) probe empty_world
  = (Returned (Some (mkQueryResult None [] [])), empty_world)
  /\ probe_hit (Some (mkQueryResult None [] [])) = false
  /\ respond (rejecting_env is_add) (ReadJSON docsPath) empty_world
     = (Returned mining_corpus, empty_world)
  /\ collect mining_corpus = Returned (batch_of [[mining_chunk]])
  /\ respond (rejecting_env is_add)
       (CollectionAdd (acc_ids (batch_of [[mining_chunk]]))
          (acc_texts (batch_of [[mining_chunk]]))
          (acc_metadatas (batch_of [[mining_chunk]]))) empty_world
     = (Thrown unavailable, empty_world)
  /\ run (rejecting_env is_add) processDocuments empty_world
     = ([probe; ReadJSON docsPath;
         CollectionAdd (acc_ids (batch_of [[mining_chunk]]))
           (acc_texts (batch_of [[mining_chunk]]))
           (acc_metadatas (batch_of [[mining_chunk]]))],
        Thrown unavailable, empty_world).
Proof.
  split_and!; [reflexivity..|].
  apply (processDocuments_insert_rejected (rejecting_env is_add) empty_world
           (Some (mkQueryResult None [] [])) empty_world mining_corpus empty_world
           (batch_of [[mining_chunk]]) unavailable empty_world); reflexivity.
Defined.

Lemma processDocuments_blank_corpus_witness :
  respond bare_env probe blank_world
  = (Returned (Some (mkQueryResult None [] [])), blank_world)
  /\ probe_hit (Some (mkQueryResult None [] [])) = false
  /\ respond bare_env (ReadJSON docsPath) blank_world
     = (Returned (JArr [document "  " "blank.md" "blank"]), blank_world)
  /\ Forall blank_document [document "  " "blank.md" "blank"]
  /\ trace bare_env processDocuments blank_world
     = [probe; ReadJSON docsPath; CollectionAdd [] [] []].
Proof.
  assert (Forall blank_document [document "  " "blank.md" "blank"]) as H.
  { constructor; [|constructor]. by exists 2. }
  split_and!; [reflexivity..|exact H|].
  apply (processDocuments_blank_corpus bare_env blank_world
           (Some (mkQueryResult None [] [])) blank_world
           [document "  " "blank.md" "blank"] blank_world); (reflexivity || exact H).
Defined.

Lemma KadenaRAG_query_retrieval_failure_witness :
  ((respond (rejecting_env is_query)
      (CollectionQuery [mining_question] (default 5 None)) mining_world).1
   = Thrown unavailable
   \/ (unavailable = TypeError
       /\ ((respond (rejecting_env is_query)
              (CollectionQuery [mining_question] (default 5 None)) mining_world).1
           = Returned None
           \/ exists r,
                (respond (rejecting_env is_query)
                   (CollectionQuery [mining_question] (default 5 None)) mining_world).1
                = Returned (Some r)
                /\ documents r = [])))
  /\ run (rejecting_env is_query) (KadenaRAG.query mining_question None) mining_world
     = ([CollectionQuery [mining_question] (default 5 None)], Thrown unavailable,
        (respond (rejecting_env is_query)
           (CollectionQuery [mining_question] (default 5 None)) mining_world).2).
Proof.
  split; [by left|].
  apply (KadenaRAG_query_retrieval_failure (rejecting_env is_query) mining_world
           mining_question None unavailable).
  by left.
Defined.

Lemma KadenaRAG_query_after_completion_witness :
  respond store_env (CollectionQuery [mining_question] (default 5 (Some 1))) mining_world
  = (Returned (Some (rows_result (take 1 mining_records) [mining_question])),
     mining_world)
  /\ documents (rows_result (take 1 mining_records) [mining_question])
     = [js "Kadena uses Blake2s mining."] :: []
  /\ respond store_env
       (ChatCompletionsCreate (js "o3-mini")
          (chat_messages (join blank_line [js "Kadena uses Blake2s mining."])
             mining_question)) mining_world
     = (Returned (says "Blake2s."), mining_world)
  /\ trace store_env (KadenaRAG.query mining_question (Some 1)) mining_world
     = [CollectionQuery [mining_question] (default 5 (Some 1));
        ChatCompletionsCreate (js "o3-mini")
          (chat_messages (join blank_line [js "Kadena uses Blake2s mining."])
             mining_question)]
  /\ final store_env (KadenaRAG.query mining_question (Some 1)) mining_world
     = mining_world.
Proof.
  split_and!; [reflexivity..| |].
  - apply (KadenaRAG_query_after_completion store_env mining_world mining_question
             (Some 1) (rows_result (take 1 mining_records) [mining_question])
             mining_world [js "Kadena uses Blake2s mining."] [] (says "Blake2s.")
             mining_world); reflexivity.
  - apply (KadenaRAG_query_after_completion store_env mining_world mining_question
             (Some 1) (rows_result (take 1 mining_records) [mining_question])
             mining_world [js "Kadena uses Blake2s mining."] [] (says "Blake2s.")
             mining_world); reflexivity.
Defined.

Lemma post_rag_without_body_witness :
  nullish JNull
  /\ run store_env (post_rag example_rag JNull) mining_world
     = ([], Returned (mkResponse 500
                        (FailureBody (js "Failed to process question") TypeError)),
        mining_world).
Proof.
  split; [by left|].
  apply (post_rag_without_body example_rag store_env JNull mining_world). by left.
Defined.

Lemma post_rag_over_KadenaRAG_witness :
  get_prop mining_body (js "question") = Returned (JStr mining_question)
  /\ mining_question <> []
  /\ get_prop mining_body (js "numResults") = Returned JUndefined
  /\ example_rag (JStr mining_question) (JNum 5) = KadenaRAG.query mining_question (Some 5)
  /\ respond (rejecting_env is_query) (CollectionQuery [mining_question] 5) mining_world
     = (Thrown unavailable, mining_world)
  /\ run (rejecting_env is_query) (post_rag example_rag mining_body) mining_world
     = ([CollectionQuery [mining_question] 5],
        Returned (mkResponse 500
                    (FailureBody (js "Failed to process question") unavailable)),
        mining_world)
  /\ respond store_env (CollectionQuery [mining_question] 5) mining_world
     = (Returned (Some (rows_result (take 5 mining_records) [mining_question])),
        mining_world)
  /\ documents (rows_result (take 5 mining_records) [mining_question])
     = [js "Kadena uses Blake2s mining."; js "Mining secures every chain."] :: []
  /\ respond store_env
       (ChatCompletionsCreate (js "o3-mini")
          (chat_messages
             (join blank_line [js "Kadena uses Blake2s mining.";
                               js "Mining secures every chain."])
             mining_question)) mining_world
     = (Returned (says "Blake2s."), mining_world)
  /\ choices (says "Blake2s.")
     = mkChoice (mkMessage (js "assistant") (JStr (js "Blake2s."))) :: []
  /\ metadatas (rows_result (take 5 mining_records) [mining_question])
     = [mining_metadata; mining_metadata] :: []
  /\ Forall (fun m => ~ nullish m) [mining_metadata; mining_metadata]
  /\ run store_env (post_rag example_rag mining_body) mining_world
     = ([CollectionQuery [mining_question] 5;
         ChatCompletionsCreate (js "o3-mini")
           (chat_messages
              (join blank_line [js "Kadena uses Blake2s mining.";
                                js "Mining secures every chain."])
              mining_question)],
        Returned (mkResponse 200
                    (AnswerBody (JStr mining_question)
                       (content (message (mkChoice (mkMessage (js "assistant")
                                                      (JStr (js "Blake2s."))))))
                       (project_source <$> [mining_metadata; mining_metadata]))),
        mining_world).
Proof.
  assert (mining_question <> []) as Hne by done.
  assert (Forall (fun m => ~ nullish m) [mining_metadata; mining_metadata]) as Hmetas.
  { repeat constructor; by intros [|]. }
  split_and!; [reflexivity|exact Hne|reflexivity|reflexivity|reflexivity| |
               reflexivity|reflexivity|reflexivity|reflexivity|reflexivity|
               exact Hmetas|].
  - apply (proj1 (post_rag_over_KadenaRAG example_rag (rejecting_env is_query)
                    mining_body mining_world mining_question
                    eq_refl Hne eq_refl eq_refl)).
    reflexivity.
  - apply (proj2 (post_rag_over_KadenaRAG example_rag store_env
                    mining_body mining_world mining_question
                    eq_refl Hne eq_refl eq_refl)
             (rows_result (take 5 mining_records) [mining_question]) mining_world
             [js "Kadena uses Blake2s mining."; js "Mining secures every chain."] []
             (says "Blake2s.") mining_world
             (mkChoice (mkMessage (js "assistant") (JStr (js "Blake2s.")))) []
             [mining_metadata; mining_metadata] []);
      (reflexivity || exact Hmetas).
Defined.

(** The handler over the query engine, answering from the example store. *)
Example post_rag_mining :
  run store_env (post_rag example_rag mining_body) mining_world
  = ([CollectionQuery [mining_question] 5;
      ChatCompletionsCreate (js "o3-mini")
        (chat_messages (join blank_line [js "Kadena uses Blake2s mining.";
                                         js "Mining secures every chain."])
           mining_question)],
     Returned (mkResponse 200
                 (AnswerBody (JStr mining_question) (JStr (js "Blake2s."))
                    (project_source <$> [mining_metadata; mining_metadata]))),
     mining_world).
Proof. vm_compute. done. Qed.

Lemma scrapeKadenaDocs_returned_witness :
  sys_run disk_env (scrapeKadenaDocs plain_text plain_name) mining_disk
  = ([EnsureDir OUTPUT_DIR; Glob (js "**/*.md") DOCS_DIR;
      read_of (js "mining.md"); read_of (js "empty.md");
      WriteJSON docsPath
        (JArr [document "Kadena uses Blake2s mining." "mining.md" "mining.md"])],
     Returned [document "Kadena uses Blake2s mining." "mining.md" "mining.md"],
     mkDisk (markdown mining_disk)
       [(docsPath,
         JArr [document "Kadena uses Blake2s mining." "mining.md" "mining.md"])]
       empty_world)
  /\ [document "Kadena uses Blake2s mining." "mining.md" "mining.md"] <> []
  /\ Forall (scraped_document plain_name)
       [document "Kadena uses Blake2s mining." "mining.md" "mining.md"].
Proof.
  assert (sys_run disk_env (scrapeKadenaDocs plain_text plain_name) mining_disk
          = ([EnsureDir OUTPUT_DIR; Glob (js "**/*.md") DOCS_DIR;
              read_of (js "mining.md"); read_of (js "empty.md");
              WriteJSON docsPath
                (JArr [document "Kadena uses Blake2s mining." "mining.md" "mining.md"])],
             Returned [document "Kadena uses Blake2s mining." "mining.md" "mining.md"],
             mkDisk (markdown mining_disk)
               [(docsPath,
                 JArr [document "Kadena uses Blake2s mining." "mining.md" "mining.md"])]
               empty_world)) as H by (vm_compute; reflexivity).
  split; [exact H|].
  split;
    apply (scrapeKadenaDocs_returned plain_text plain_name disk_env mining_disk _ _ _ H).
Defined.

Lemma scrapeKadenaDocs_nothing_scraped_witness :
  sys_respond (unreadable_env [js "mining.md"]) (EnsureDir OUTPUT_DIR) tt
  = (Returned tt, tt)
  /\ sys_respond (unreadable_env [js "mining.md"]) (Glob (js "**/*.md") DOCS_DIR) tt
     = (Returned [js "mining.md"], tt)
  /\ (forall file st,
        file ∈ [js "mining.md"] ->
        match (sys_respond (unreadable_env [js "mining.md"]) (read_of file) st).1 with
        | Returned text => text = []
        | Thrown _ => True
        end)
  /\ sys_trace (unreadable_env [js "mining.md"])
       (scrapeKadenaDocs plain_text plain_name) tt
     = EnsureDir OUTPUT_DIR :: Glob (js "**/*.md") DOCS_DIR
       :: (read_of <$> [js "mining.md"])
  /\ sys_outcome (unreadable_env [js "mining.md"])
       (scrapeKadenaDocs plain_text plain_name) tt
     = Thrown no_documents.
Proof.
  assert (forall file st,
            file ∈ [js "mining.md"] ->
            match (sys_respond (unreadable_env [js "mining.md"]) (read_of file) st).1
            with
            | Returned text => text = []
            | Thrown _ => True
            end) as H by (intros file st _; exact I).
  split_and!; [reflexivity|reflexivity|exact H|..];
    apply (scrapeKadenaDocs_nothing_scraped plain_text plain_name
             (unreadable_env [js "mining.md"]) tt tt [js "mining.md"] tt);
    (reflexivity || exact H).
Defined.

(** The start-up on the example disk: the collection is got, the corpus is
    read from the disk-less world and inserted. *)
Example KadenaRAG_initialize_mining :
  (sys_run disk_env KadenaRAG_initialize mining_disk).1
  = ([GetCollection COLLECTION_NAME; Service probe; Service (ReadJSON docsPath);
      Service (CollectionAdd [js "0-0"] [js "Kadena uses Blake2s mining."]
                 [mining_metadata])],
     Returned tt).
Proof. vm_compute. done. Qed.

(** When the collection can neither be got nor created, nothing is
    ingested. *)
Example KadenaRAG_initialize_unavailable :
  sys_run
    (mkSysEnv unit (fun c s => (Thrown unavailable, s)))
    KadenaRAG_initialize tt
  = ([GetCollection COLLECTION_NAME; CreateCollection COLLECTION_NAME],
     Thrown unavailable, tt).
Proof. vm_compute. done. Qed.

(** White space of every kind is collapsed and trimmed. *)
Example normalize_example :
  normalize ([9; 32] ++ js "Kadena" ++ [10; 10; 32] ++ js "uses" ++ [160]
             ++ js "Pact." ++ [13; 10])%N
  = js "Kadena uses Pact.".
Proof. vm_compute. done. Qed.

(** ** The budget and the words between white space *)

(** C3, as it was stated, fails.  Three hundred words of two code units with
    a line feed between two of them hold no space: the chunker gives them as
    one chunk of 899 code units, which is over the budget and is not one word
    between white space. *)
Lemma splitIntoChunks_budget_whitespace_counterexample :
  chunk_texts (splitIntoChunks lf_words tt) = [lf_words]
  /\ length lf_words = 899
  /\ length (words is_whitespace lf_words) = 300
  /\ ~ Forall (fun c : Chunk unit =>
                 length (text c) <= 500
                 \/ exists w, words is_whitespace (text c) = [w] /\ 500 < length w)
         (splitIntoChunks lf_words tt).
Proof.
  assert (splitIntoChunks lf_words tt = [mkChunk lf_words tt]) as Hchunks
    by (vm_compute; reflexivity).
  assert (length lf_words = 899) as Hlen by (vm_compute; reflexivity).
  assert (length (words is_whitespace lf_words) = 300) as Hwords
    by (vm_compute; reflexivity).
  split_and!; [by rewrite Hchunks|done|done|].
  rewrite Hchunks. intros [[Hle|(w & Hw & _)] _]%Forall_cons; cbn [text] in *.
  - rewrite Hlen in Hle. lia.
  - rewrite Hw in Hwords. done.
Qed.

Lemma splitIntoChunks_budget_witness :
  long_word ∈ split_space long_word_input
  /\ 500 < length long_word
  /\ long_word ∈ chunk_texts (splitIntoChunks long_word_input tt).
Proof.
  assert (long_word ∈ split_space long_word_input) as Hin.
  { apply list_elem_of_In. vm_compute. right. left. reflexivity. }
  assert (500 < length long_word) as Hlong.
  { unfold long_word. rewrite length_replicate. lia. }
  split_and!; [exact Hin|exact Hlong|].
  exact (proj2 (splitIntoChunks_budget long_word_input tt) long_word Hin Hlong).
Defined.
